(** * Lumus_Max9814: capture-and-handoff pipeline

    A shallow embedding of [src/Lumus_Max9814.ino]: the shared inference
    buffer, the sampling task, the control loop and the start/stop
    functions, with the properties of the pipeline stated over them. *)

From Stdlib Require Import ZArith Lia Bool List.
From Stdlib Require Import Uint63 Floats.
From stdpp Require Import base option list gmap.

Local Open Scope Z_scope.

(** ** Machine integers *)

(** [uint32_t] arithmetic wraps modulo 2^32. *)
Definition u32 (z : Z) : Z := z mod 2 ^ 32.

(** Conversion of an [int] to [signed short] (two's complement, 16 bits). *)
Definition to_int16 (z : Z) : Z := (z + 32768) mod 65536 - 32768.

(** [sizeof(int16_t)]. *)
Definition sizeof_int16 : Z := 2.

(** [static const uint32_t sample_buffer_size = 2048;] *)
Definition sample_buffer_size : Z := 2048.

(** ** Program state *)

Inductive level := LOW | HIGH.

(** Undefined behaviour of the C program is made explicit. *)
Inductive fault :=
  | OutOfBounds      (* array access past the end of its object *)
  | InvalidPointer   (* access through NULL or a released block *)
  | DoubleFree.      (* free of a block that is not live *)

Inductive result (A : Type) :=
  | Ok (a : A)
  | Fault (f : fault).
Arguments Ok {A} a.
Arguments Fault {A} f.

#[global] Instance result_ret : MRet result := λ A a, Ok a.

#[global] Instance result_fmap : FMap result := λ A B g m,
  match m with
  | Ok a => Ok (g a)
  | Fault f => Fault f
  end.

#[global] Instance result_bind : MBind result := λ A B k m,
  match m with
  | Ok a => k a
  | Fault f => Fault f
  end.

(** [typedef struct { ... } inference_t;]  A pointer is an address, [0]
    being [NULL]. *)
Record inference_t := mk_inference {
  buffer : Z;
  buf_ready : Z;
  buf_count : Z;
  n_samples : Z
}.

(** What the sketch sends to the console, one constructor for each call
    of [ei_printf] or [ei_printf_float] in [loop]. *)
Inductive message :=
  | RecordError                     (* line 105 *)
  | ClassifierError (r : Z)         (* line 118 *)
  | PredictionsHeader               (* line 123 *)
  | Timings (dsp cls anom : Z)      (* lines 124-125 *)
  | HeaderEnd                       (* line 126 *)
  | AnomalyHeader                   (* line 136 *)
  | AnomalyScore (a : float)        (* line 137 *)
  | AnomalyEnd                      (* line 138 *)
  | LabelName (l : nat)             (* line 145 *)
  | LabelValue (v : float).         (* line 146 *)

(** The globals of the sketch, the heap, and a log of what it did to the
    outside: tasks created, pin writes, console lines, and the readings
    the converter has yet to deliver. *)
Record state := mk_state {
  inference : inference_t;
  sampleBuffer : list Z;
  record_status : bool;
  heap : gmap Z (list Z);
  tasks : list Z;
  gpio : list (Z * level);
  console : list message;
  adc : list Z
}.

Definition set_inference (inf : inference_t) (st : state) : state :=
  mk_state inf (sampleBuffer st) (record_status st) (heap st) (tasks st)
           (gpio st) (console st) (adc st).

Definition set_sampleBuffer (sb : list Z) (st : state) : state :=
  mk_state (inference st) sb (record_status st) (heap st) (tasks st)
           (gpio st) (console st) (adc st).

Definition set_record_status (b : bool) (st : state) : state :=
  mk_state (inference st) (sampleBuffer st) b (heap st) (tasks st)
           (gpio st) (console st) (adc st).

Definition set_heap (h : gmap Z (list Z)) (st : state) : state :=
  mk_state (inference st) (sampleBuffer st) (record_status st) h (tasks st)
           (gpio st) (console st) (adc st).

Definition set_adc (a : list Z) (st : state) : state :=
  mk_state (inference st) (sampleBuffer st) (record_status st) (heap st)
           (tasks st) (gpio st) (console st) a.

(** [xTaskCreate(capture_samples, ..., (void* )arg, 10, NULL)] *)
Definition xTaskCreate (arg : Z) (st : state) : state :=
  mk_state (inference st) (sampleBuffer st) (record_status st) (heap st)
           (tasks st ++ [arg]) (gpio st) (console st) (adc st).

(** [digitalWrite(pin, l)] *)
Definition digitalWrite (pin : Z) (l : level) (st : state) : state :=
  mk_state (inference st) (sampleBuffer st) (record_status st) (heap st)
           (tasks st) (gpio st ++ [(pin, l)]) (console st) (adc st).

(** [ei_printf(...)] *)
Definition ei_printf (m : message) (st : state) : state :=
  mk_state (inference st) (sampleBuffer st) (record_status st) (heap st)
           (tasks st) (gpio st) (console st ++ [m]) (adc st).

Definition set_buf_ready (r : Z) (inf : inference_t) : inference_t :=
  mk_inference (buffer inf) r (buf_count inf) (n_samples inf).

Definition set_buf_count (c : Z) (inf : inference_t) : inference_t :=
  mk_inference (buffer inf) (buf_ready inf) c (n_samples inf).

Definition set_buffer (p : Z) (inf : inference_t) : inference_t :=
  mk_inference p (buf_ready inf) (buf_count inf) (n_samples inf).

Definition set_n_samples (n : Z) (inf : inference_t) : inference_t :=
  mk_inference (buffer inf) (buf_ready inf) (buf_count inf) n.

(** ** Memory *)

(** [p[idx] = v] for a pointer [p] into the heap. *)
Definition store (p idx v : Z) (st : state) : result state :=
  match heap st !! p with
  | None => Fault InvalidPointer
  | Some blk =>
      if (0 <=? idx) && (idx <? Z.of_nat (length blk))
      then Ok (set_heap (<[p := <[Z.to_nat idx := v]> blk]> (heap st)) st)
      else Fault OutOfBounds
  end.

(** [&p[offset]] read for [len] cells; an empty range reads nothing,
    wherever it starts. *)
Definition load_range (p : Z) (offset len : nat) (st : state)
  : result (list Z) :=
  if Nat.eqb len 0 then Ok []
  else
    match heap st !! p with
    | None => Fault InvalidPointer
    | Some blk =>
        if Nat.leb (offset + len) (length blk)
        then Ok (take len (drop offset blk))
        else Fault OutOfBounds
    end.

(** [free(p)]: nothing for [NULL], releases a live block, and is
    undefined on anything else. *)
Definition ei_free (p : Z) (st : state) : result state :=
  if p =? 0 then Ok st
  else match heap st !! p with
       | Some _ => Ok (set_heap (delete p (heap st)) st)
       | None => Fault DoubleFree
       end.

(** ** The inference buffer *)

(** The body of the loop of [audio_inference_callback] (lines 166-171) for
    one sample [x]:
<<
    inference.buffer[inference.buf_count++] = x;
    if (inference.buf_count >= inference.n_samples) {
      inference.buf_count = 0;
      inference.buf_ready = 1;
    }
>> *)
Definition append_sample (x : Z) (st : state) : result state :=
  let inf := inference st in
  st1 ← store (buffer inf) (buf_count inf) x st ;
  let inf1 := set_buf_count (u32 (buf_count inf + 1)) inf in
  if n_samples inf1 <=? buf_count inf1
  then Ok (set_inference (set_buf_ready 1 (set_buf_count 0 inf1)) st1)
  else Ok (set_inference inf1 st1).

(** One iteration of the loop at index [i]: the sample is [sampleBuffer[i]]. *)
Definition callback_body (i : nat) (st : state) : result state :=
  match sampleBuffer st !! i with
  | None => Fault OutOfBounds
  | Some x => append_sample x st
  end.

(** [for (i = from; i < from + k; i++) body], the [k] remaining iterations. *)
Fixpoint callback_loop (k : nat) (from : nat) (st : state) : result state :=
  match k with
  | O => Ok st
  | S k' => st1 ← callback_body from st ; callback_loop k' (S from) st1
  end.

(** [static void audio_inference_callback(uint32_t n_samples)] *)
Definition audio_inference_callback (n : Z) (st : state) : result state :=
  callback_loop (Z.to_nat n) 0 st.

(** ** The sampling task *)

(** [adc1_get_raw(ADC1_CHANNEL_6)]: the next reading of the converter
    (0 once the recorded readings are used up). *)
Definition adc1_get_raw (st : state) : Z * state :=
  match adc st with
  | [] => (0, st)
  | r :: rest => (r, set_adc rest st)
  end.

(** [sampleBuffer[i] = adc1_get_raw(ADC1_CHANNEL_6);] (line 193): the [int]
    is narrowed to [signed short]; [sampleBuffer] has a fixed length. *)
Definition read_body (i : nat) (st : state) : result state :=
  let '(raw, st1) := adc1_get_raw st in
  if Nat.ltb i (length (sampleBuffer st1))
  then Ok (set_sampleBuffer (<[i := to_int16 raw]> (sampleBuffer st1)) st1)
  else Fault OutOfBounds.

Fixpoint read_loop (k : nat) (from : nat) (st : state) : result state :=
  match k with
  | O => Ok st
  | S k' => st1 ← read_body from st ; read_loop k' (S from) st1
  end.

(** One pass through the [while] loop of [capture_samples] (lines 191-203)
    when nothing else touches [record_status] meanwhile.  The boolean says
    whether the loop goes on ([vTaskDelay] was reached) or was left. *)
Definition capture_cycle (arg : Z) (st : state) : result (bool * state) :=
  let samples_to_read := u32 arg in
  if record_status st then
    st1 ← read_loop (Z.to_nat samples_to_read) 0 st ;
    if record_status st1 then
      st2 ← audio_inference_callback samples_to_read st1 ;
      Ok (true, st2)
    else Ok (false, st1)
  else Ok (false, st).

(** [static void capture_samples(void* arg)]: [None] while the task is
    still running when the fuel is spent, [Some] once it has deleted
    itself. *)
Fixpoint capture_samples (fuel : nat) (arg : Z) (st : state)
  : result (option state) :=
  match fuel with
  | O => Ok None
  | S fuel' =>
      r ← capture_cycle arg st ;
      match r with
      | (true, st1) => capture_samples fuel' arg st1
      | (false, st1) => Ok (Some st1)
      end
  end.

(** The same task, statement by statement, for runs in which the control
    loop's context is scheduled in between: where the task stands. *)
Inductive control :=
  | LoopHead                (* line 191, about to test [record_status] *)
  | Reading (i : nat)       (* lines 192-194, about to test [i < samples_to_read] *)
  | Recheck                 (* line 196, about to test [record_status] *)
  | Forwarding (i : nat)    (* lines 165-172, about to test [i < n_samples] *)
  | Delaying                (* line 202, in [vTaskDelay] *)
  | Deleted.                (* line 204, [vTaskDelete(NULL)] done *)

Definition capture_step (arg : Z) (c : control) (st : state)
  : result (control * state) :=
  let samples_to_read := Z.to_nat (u32 arg) in
  match c with
  | LoopHead =>
      Ok (if record_status st then Reading 0 else Deleted, st)
  | Reading i =>
      if Nat.ltb i samples_to_read
      then st1 ← read_body i st ; Ok (Reading (S i), st1)
      else Ok (Recheck, st)
  | Recheck =>
      Ok (if record_status st then Forwarding 0 else Deleted, st)
  | Forwarding i =>
      if Nat.ltb i samples_to_read
      then st1 ← callback_body i st ; Ok (Forwarding (S i), st1)
      else Ok (Delaying, st)
  | Delaying => Ok (LoopHead, st)
  | Deleted => Ok (Deleted, st)
  end.

Fixpoint capture_steps (k : nat) (arg : Z) (c : control) (st : state)
  : result (control * state) :=
  match k with
  | O => Ok (c, st)
  | S k' => '(c1, st1) ← capture_step arg c st ; capture_steps k' arg c1 st1
  end.

(** Whether the task stands inside the loop of
    [audio_inference_callback]. *)
Definition is_forwarding (c : control) : bool :=
  match c with
  | Forwarding _ => true
  | _ => false
  end.

(** With [record_status] false and the task outside that loop: a bound on
    the steps it still takes before it has deleted itself. *)
Definition steps_to_exit (samples_to_read : nat) (c : control) : nat :=
  match c with
  | LoopHead => 1
  | Reading i => samples_to_read - i + 2
  | Recheck => 1
  | Forwarding _ => 0
  | Delaying => 2
  | Deleted => 0
  end.

(** ** Start and stop *)

Section Lifecycle.

(** The allocator: given the size in bytes and the heap, the address of
    the new block ([0] when it fails) and the heap after the call. *)
Variable malloc : Z → gmap Z (list Z) → Z * gmap Z (list Z).

(** [static bool microphone_inference_start(uint32_t n_samples)].  The
    size is computed in the 32-bit [size_t] of the target. *)
Definition microphone_inference_start (n : Z) (st : state) : bool * state :=
  let n := u32 n in
  let '(p, h) := malloc (u32 (n * sizeof_int16)) (heap st) in
  let st1 := set_inference (set_buffer p (inference st)) (set_heap h st) in
  if p =? 0 then (false, st1)
  else
    let inf :=
      set_buf_ready 0 (set_n_samples n (set_buf_count 0 (inference st1))) in
    let st2 := set_record_status true (set_inference inf st1) in
    (true, xTaskCreate sample_buffer_size st2).

End Lifecycle.

(** [static void microphone_inference_end(void)] *)
Definition microphone_inference_end (st : state) : result state :=
  let st1 := set_record_status false st in
  ei_free (buffer (inference st1)) st1.

(** ** The control loop *)

(** One entry of [result.classification].  A label is known by its
    number; [value] holds the [float] of the source as the [double] it is
    promoted to in the comparison of line 144. *)
Record ei_impulse_result_classification_t := mk_classification {
  label : nat;
  value : float
}.

(** [result.timing]; the fields [classification] and [anomaly] of the
    source carry the suffix [_time] here, the names being taken by the
    fields of the result. *)
Record ei_impulse_result_timing_t := mk_timing {
  dsp : Z;
  classification_time : Z;
  anomaly_time : Z
}.

Record ei_impulse_result_t := mk_result {
  classification : list ei_impulse_result_classification_t;
  anomaly : float;
  timing : ei_impulse_result_timing_t
}.

(** [signal_t]: what the classifier is given. *)
Record signal_t := mk_signal {
  total_length : Z;
  get_data : nat → nat → result (Z * list float)
}.

(** [EI_IMPULSE_OK] *)
Definition EI_IMPULSE_OK : Z := 0.

(** The [double] constant [0.40000] of line 144: the binary64 value
    nearest to 4/10. *)
Definition threshold : float := 0x1.999999999999ap-2%float.

(** How one pass of [loop] ended: at the [return] of line 106, at the one
    of line 119, or at its end. *)
Inductive loop_exit :=
  | RecordFailed
  | ClassifierFailed (r : Z)
  | Completed.

Section Consumer.

(** The window size of the model, [EI_CLASSIFIER_RAW_SAMPLE_COUNT], and
    [EI_CLASSIFIER_HAS_ANOMALY], both from the header of the model. *)
Variable EI_CLASSIFIER_RAW_SAMPLE_COUNT : Z.
Variable EI_CLASSIFIER_HAS_ANOMALY : Z.

(** [numpy::int16_to_float], element by element. *)
Variable int16_to_float : Z → float.

(** [run_classifier(&signal, &result, debug)]: status and result. *)
Variable run_classifier :
  signal_t → bool → result (Z * ei_impulse_result_t).

(** What the other tasks do to the state while the caller sleeps in
    [delay(5)] or [vTaskDelay(pdMS_TO_TICKS(5))]. *)
Variable yield : state → result state.

(** [static bool debug_nn = false;] *)
Definition debug_nn : bool := false.

(** [static bool microphone_inference_record(void)]: [None] when the fuel
    is spent with the flag still clear. *)
Fixpoint microphone_inference_record (fuel : nat) (st : state)
  : result (option (bool * state)) :=
  let ret := true in
  match fuel with
  | O => Ok None
  | S fuel' =>
      if buf_ready (inference st) =? 0
      then st1 ← yield st ; microphone_inference_record fuel' st1
      else Ok (Some (ret, set_inference (set_buf_ready 0 (inference st)) st))
  end.

(** [static int microphone_audio_signal_get_data(size_t offset,
    size_t length, float *out_ptr)]: the status and what is written to
    [out_ptr]. *)
Definition microphone_audio_signal_get_data (st : state)
  (offset len : nat) : result (Z * list float) :=
  cells ← load_range (buffer (inference st)) offset len st ;
  Ok (0, map int16_to_float cells).

(** [void loop()] *)
Definition loop (fuel : nat) (st : state)
  : result (option (loop_exit * state)) :=
  r ← microphone_inference_record fuel st ;
  match r with
  | None => Ok None
  | Some (m, st1) =>
      if negb m then Ok (Some (RecordFailed, ei_printf RecordError st1))
      else
        let signal :=
          mk_signal EI_CLASSIFIER_RAW_SAMPLE_COUNT
                    (microphone_audio_signal_get_data st1) in
        '(r, res) ← run_classifier signal debug_nn ;
        if negb (r =? EI_IMPULSE_OK)
        then Ok (Some (ClassifierFailed r, ei_printf (ClassifierError r) st1))
        else
          let st2 :=
            ei_printf HeaderEnd
              (ei_printf (Timings (dsp (timing res))
                                  (classification_time (timing res))
                                  (anomaly_time (timing res)))
                 (ei_printf PredictionsHeader st1)) in
          let st2 :=
            if EI_CLASSIFIER_HAS_ANOMALY =? 1
            then ei_printf AnomalyEnd
                   (ei_printf (AnomalyScore (anomaly res))
                      (ei_printf AnomalyHeader st2))
            else st2 in
          let st3 := digitalWrite 33 LOW st2 in
          match classification res !! 0%nat with
          | None => Fault OutOfBounds
          | Some c0 =>
              let st4 :=
                if PrimFloat.ltb threshold (value c0)
                then digitalWrite 33 HIGH
                       (ei_printf (LabelValue (value c0))
                          (ei_printf (LabelName (label c0)) st3))
                else st3 in
              st5 ← yield st4 ;
              Ok (Some (Completed, st5))
          end
  end.

End Consumer.

(** ** Runs of the two contexts over the inference buffer *)

(** [append_sample] for each sample of a list, in order. *)
Fixpoint append_samples (xs : list Z) (st : state) : result state :=
  match xs with
  | [] => Ok st
  | x :: rest => st1 ← append_sample x st ; append_samples rest st1
  end.

(** The consumer looks at the flag once, without sleeping: the state it
    leaves (the flag cleared when it was set, line 252). *)
Definition consumer_claim (st : state) : state :=
  match microphone_inference_record (λ s, Ok s) 1 st with
  | Ok (Some (_, st1)) => st1
  | _ => st
  end.

(** What the two contexts do to the buffer, one step at a time. *)
Inductive event :=
  | Append (x : Z)   (* the sampling task stores one sample *)
  | Claim.           (* the control loop tests and clears the flag *)

Definition step_event (e : event) (st : state) : result state :=
  match e with
  | Append x => append_sample x st
  | Claim => Ok (consumer_claim st)
  end.

Fixpoint run_events (evs : list event) (st : state) : result state :=
  match evs with
  | [] => Ok st
  | e :: rest => st1 ← step_event e st ; run_events rest st1
  end.

(** A schedule in which the sampling task never stores while the flag is
    set: the control loop claims every window before the next sample. *)
Fixpoint claimed_in_time (evs : list event) (st : state) : bool :=
  match evs with
  | [] => true
  | e :: rest =>
      match e with
      | Append _ => buf_ready (inference st) =? 0
      | Claim => true
      end
      && match step_event e st with
         | Ok st1 => claimed_in_time rest st1
         | Fault _ => false
         end
  end.

(** The cells [inference.buffer] points to, if it points to a live block. *)
Definition window (st : state) : option (list Z) :=
  heap st !! buffer (inference st).

(** The buffer is usable: a window size that fits [uint32_t], the fill
    count below it, and a live block of at least that many cells. *)
Definition wf (st : state) : Prop :=
  0 < n_samples (inference st) < 2 ^ 32 ∧
  0 ≤ buf_count (inference st) < n_samples (inference st) ∧
  ∃ cells, window st = Some cells ∧
           n_samples (inference st) ≤ Z.of_nat (length cells).

(** The start of a window of size [N]: nothing stored, flag clear, and a
    block of exactly [N] cells. *)
Definition aligned (N : Z) (st : state) : Prop :=
  n_samples (inference st) = N ∧ 0 < N < 2 ^ 32 ∧
  buf_count (inference st) = 0 ∧ buf_ready (inference st) = 0 ∧
  ∃ cells, window st = Some cells ∧ Z.of_nat (length cells) = N.

(** The allocator gives what it is asked for: a block it returns holds at
    least the requested number of bytes. *)
Definition malloc_sound
  (malloc : Z → gmap Z (list Z) → Z * gmap Z (list Z)) : Prop :=
  ∀ size h p h', malloc size h = (p, h') → p ≠ 0 →
    ∃ cells, h' !! p = Some cells ∧
             size ≤ Z.of_nat (length cells) * sizeof_int16.

(** ** Concrete surroundings *)

(** The globals as the C runtime initialises them, with the readings [tape]
    still to come from the converter. *)
Definition boot (tape : list Z) : state :=
  mk_state (mk_inference 0 0 0 0)
           (replicate (Z.to_nat sample_buffer_size) 0)
           true ∅ [] [] [] tape.

(** An allocator with [limit] bytes to give, which hands out zeroed blocks
    at [addr] and fails on a request of size 0, on one over the limit, and
    when [addr] is taken. *)
Definition malloc_at (addr limit : Z) (size : Z) (h : gmap Z (list Z))
  : Z * gmap Z (list Z) :=
  if (0 <? size) && (size <=? limit) && bool_decide (h !! addr = None)
  then (addr,
        <[addr := replicate
                    (Z.to_nat ((size + sizeof_int16 - 1) / sizeof_int16)) 0]> h)
  else (0, h).

(** The integer [z] as a [float]. *)
Definition Z_to_float (z : Z) : float :=
  match z with
  | Z0 => 0%float
  | Zpos _ => PrimFloat.of_uint63 (Uint63.of_Z z)
  | Zneg _ => PrimFloat.opp (PrimFloat.of_uint63 (Uint63.of_Z (- z)))
  end.

(** A conversion of samples to the classifier's format: scaling by
    2^-15, exact on every 16-bit value. *)
Definition int16_to_float_scaled (z : Z) : float :=
  PrimFloat.div (Z_to_float z) 32768%float.

(** A session of window size 3 right after a successful start. *)
Definition session3 : state :=
  snd (microphone_inference_start (malloc_at 4096 65536) 3 (boot [])).

(** The state a run ended in, [d] if it faulted. *)
Definition from_result (d : state) (r : result state) : state :=
  match r with
  | Ok s => s
  | Fault _ => d
  end.

(** The same session with its first window complete and not yet claimed. *)
Definition session3_ready : state :=
  from_result session3 (run_events [Append 1; Append 2; Append 3] session3).

(** A session of the window size of the model, 16000 samples, right after
    a successful start, with 16000 readings to come. *)
Definition session16000 : state :=
  snd (microphone_inference_start (malloc_at 4096 65536) 16000
         (boot (replicate (Z.to_nat 16000) 1))).

(** What a pass of the sampling task left: whether its loop goes on, the
    number of readings still to come, the fill count and the flag. *)
Definition pass_summary (r : result (bool * state))
  : option (bool * nat * Z * Z) :=
  match r with
  | Ok (b, s) =>
      Some (b, length (adc s), buf_count (inference s), buf_ready (inference s))
  | Fault _ => None
  end.

(** A session of window size 3 whose task has taken its 2048 readings
    (all 7), found recording still on at line 196 and forwarded the first
    sample. *)
Definition session3_forwarding : state :=
  mk_state (mk_inference 4096 0 1 3)
           (replicate (Z.to_nat sample_buffer_size) 7)
           true {[ 4096 := [7; 0; 0] ]} [2048] [] [] [].

(** One pass of the sampling task, as it was started, during each sleep
    of the control loop. *)
Definition sampler_yield (st : state) : result state :=
  '(_, st1) ← capture_cycle sample_buffer_size st ; Ok st1.

(** A classifier that reads the whole window and reports confidence [v]
    for its only label. *)
Definition classifier_of (v : float) (signal : signal_t) (debug : bool)
  : result (Z * ei_impulse_result_t) :=
  _ ← get_data signal 0%nat (Z.to_nat (total_length signal)) ;
  Ok (EI_IMPULSE_OK,
      mk_result [mk_classification 0 v] 0%float (mk_timing 0 0 0)).

(** The state a pass of [loop] ended in, [d] if it did not end. *)
Definition after_loop (d : state)
  (r : result (option (loop_exit * state))) : state :=
  match r with
  | Ok (Some (_, s)) => s
  | _ => d
  end.

(** The session with its first window complete, after one pass of [loop]
    with a classifier that reports 0.5: the pin was written low and high,
    and during the last sleep the task stored 2048 readings of 0. *)
Definition session3_looped : state :=
  mk_state (mk_inference 4096 1 2 3)
           (replicate (Z.to_nat sample_buffer_size) 0)
           true {[ 4096 := [0; 0; 0] ]} [2048]
           [(33, LOW); (33, HIGH)]
           [PredictionsHeader; Timings 0 0 0; HeaderEnd;
            LabelName 0; LabelValue 0.5%float] [].

(** ** Longer runs *)

(** How many samples a schedule stores. *)
Fixpoint count_appends (evs : list event) : nat :=
  match evs with
  | [] => O
  | Append _ :: rest => S (count_appends rest)
  | Claim :: rest => count_appends rest
  end.

(** [k] passes of the sampling task as it was started, one after the
    other. *)
Fixpoint passes (k : nat) (st : state) : result state :=
  match k with
  | O => Ok st
  | S k' => st1 ← sampler_yield st ; passes k' st1
  end.

(** The next [m] samples the task takes from the readings [tape]: each
    narrowed to 16 bits, 0 past the recorded ones. *)
Definition samples_of (m : nat) (tape : list Z) : list Z :=
  map to_int16 (take m (tape ++ replicate m 0)).

(** A classifier that fails with status [r] without reading anything. *)
Definition classifier_failing (r : Z) (signal : signal_t) (debug : bool)
  : result (Z * ei_impulse_result_t) :=
  Ok (r, mk_result [] 0%float (mk_timing 0 0 0)).

(** The allocator hands out blocks that were not in use and leaves the
    other blocks alone. *)
Definition malloc_fresh
  (malloc : Z → gmap Z (list Z) → Z * gmap Z (list Z)) : Prop :=
  ∀ size h p h', malloc size h = (p, h') → p ≠ 0 →
    h !! p = None ∧ ∀ q, q ≠ p → h' !! q = h !! q.

(** An allocator with [limit] bytes to give per request that places its
    blocks 65536 apart, after those of the blocks in use. *)
Definition malloc_bump (limit : Z) (size : Z) (h : gmap Z (list Z))
  : Z * gmap Z (list Z) :=
  malloc_at (4096 + 65536 * Z.of_nat (base.size h)) limit size h.

(** A first session of window size 3 with the allocator [malloc_bump],
    and a second one started over it without a stop. *)
Definition first_session : state :=
  snd (microphone_inference_start (malloc_bump 65536) 3 (boot [])).

Definition second_session : state :=
  snd (microphone_inference_start (malloc_bump 65536) 3 first_session).

(** The first session stopped, and then started again. *)
Definition restarted_session : state :=
  snd (microphone_inference_start (malloc_bump 65536) 3
         (from_result first_session (microphone_inference_end first_session))).

(** A session whose window holds two batches of the sampling task, right
    after a successful start. *)
Definition session4096 : state :=
  snd (microphone_inference_start (malloc_at 4096 65536) 4096 (boot [])).

(** * Properties *)

(** ** One sample *)

Lemma u32_small z : 0 ≤ z < 2 ^ 32 → u32 z = z.
Proof. intros H. unfold u32. by apply Z.mod_small. Qed.

(** What [append_sample] does to a usable buffer. *)
Lemma append_sample_wf st x cells :
  window st = Some cells →
  0 ≤ buf_count (inference st) < n_samples (inference st) →
  n_samples (inference st) ≤ Z.of_nat (length cells) →
  n_samples (inference st) < 2 ^ 32 →
  append_sample x st =
    Ok (set_inference
          (if buf_count (inference st) + 1 <? n_samples (inference st)
           then set_buf_count (buf_count (inference st) + 1) (inference st)
           else set_buf_ready 1 (set_buf_count 0 (inference st)))
          (set_heap (<[buffer (inference st) :=
                       <[Z.to_nat (buf_count (inference st)) := x]> cells]>
                     (heap st)) st)).
Proof.
  intros Hw Hc Hlen Hn. unfold append_sample, store, window in *.
  rewrite Hw. cbn.
  replace ((0 <=? buf_count (inference st))
           && (buf_count (inference st) <? Z.of_nat (length cells)))
    with true by (symmetry; apply andb_true_iff; lia).
  cbn. rewrite u32_small by lia.
  destruct (inference st) as [p r c n]; cbn in *.
  destruct (Z.leb_spec n (c + 1)), (Z.ltb_spec (c + 1) n); try lia; done.
Qed.

(** A usable buffer stays usable, and only the buffer changes. *)
Lemma append_sample_step st x :
  wf st →
  ∃ st', append_sample x st = Ok st' ∧ wf st' ∧
    n_samples (inference st') = n_samples (inference st) ∧
    buffer (inference st') = buffer (inference st) ∧
    buf_count (inference st') =
      (buf_count (inference st) + 1) mod n_samples (inference st) ∧
    buf_ready (inference st') =
      (if buf_count (inference st) + 1 <? n_samples (inference st)
       then buf_ready (inference st) else 1) ∧
    sampleBuffer st' = sampleBuffer st ∧
    record_status st' = record_status st ∧
    tasks st' = tasks st ∧ gpio st' = gpio st ∧
    console st' = console st ∧ adc st' = adc st.
Proof.
  intros (Hn & Hc & cells & Hw & Hlen).
  eexists. split; [by apply (append_sample_wf st x cells); try lia|].
  unfold wf, window in *.
  destruct st as [[p r c n] sb rs h ts g co a]; cbn in *.
  destruct (Z.ltb_spec (c + 1) n); cbn.
  - rewrite Z.mod_small by lia. repeat split; try lia.
    eexists. rewrite lookup_insert_eq. split; [done|].
    rewrite length_insert. lia.
  - replace (c + 1) with n by lia. rewrite Z.mod_same by lia.
    repeat split; try lia.
    eexists. rewrite lookup_insert_eq. split; [done|].
    rewrite length_insert. lia.
Qed.

(** The start of a window is a usable buffer. *)
Lemma aligned_wf N st : aligned N st → wf st.
Proof.
  intros (Hn & HN & Hc & Hr & cells & Hw & Hlen).
  unfold wf. rewrite Hn, Hc. split_and!; try lia.
  exists cells. split; [done|lia].
Qed.

(** The claim clears the flag and nothing else. *)
Lemma consumer_claim_spec st :
  consumer_claim st =
    if buf_ready (inference st) =? 0 then st
    else set_inference (set_buf_ready 0 (inference st)) st.
Proof.
  unfold consumer_claim. cbn. by destruct (buf_ready (inference st) =? 0).
Qed.

Lemma consumer_claim_wf st : wf st → wf (consumer_claim st).
Proof.
  rewrite consumer_claim_spec. by destruct (_ =? _).
Qed.

Lemma consumer_claim_fields st :
  n_samples (inference (consumer_claim st)) = n_samples (inference st) ∧
  buf_count (inference (consumer_claim st)) = buf_count (inference st) ∧
  (buf_ready (inference (consumer_claim st)) = 0).
Proof.
  rewrite consumer_claim_spec.
  destruct (Z.eqb_spec (buf_ready (inference st)) 0); cbn; done.
Qed.

(** ** Runs of samples *)

Lemma append_samples_app xs ys st :
  append_samples (xs ++ ys) st =
    (st1 ← append_samples xs st ; append_samples ys st1).
Proof.
  revert st. induction xs as [|x xs IH]; intros st; [done|].
  cbn. destruct (append_sample x st) as [st1|f]; cbn; [apply IH|done].
Qed.

(** Samples that do not complete the window land one after the other from
    the fill count on, and the flag is left alone. *)
Lemma append_samples_within xs :
  ∀ st cells (c : nat),
    window st = Some cells →
    buf_count (inference st) = Z.of_nat c →
    n_samples (inference st) = Z.of_nat (length cells) →
    n_samples (inference st) < 2 ^ 32 →
    (c + length xs < length cells)%nat →
    ∃ st', append_samples xs st = Ok st' ∧
      buf_count (inference st') = Z.of_nat (c + length xs) ∧
      buf_ready (inference st') = buf_ready (inference st) ∧
      n_samples (inference st') = n_samples (inference st) ∧
      window st' = Some (take c cells ++ xs ++ drop (c + length xs) cells).
Proof.
  induction xs as [|x xs IH]; intros st cells c Hw Hc Hn H32 Hlt.
  - exists st. cbn. rewrite Nat.add_0_r, take_drop. repeat split; try done.
  - cbn [append_samples length] in *.
    rewrite (append_sample_wf st x cells) by (try done; lia).
    replace (buf_count (inference st) + 1 <? n_samples (inference st))
      with true by (symmetry; apply Z.ltb_lt; lia).
    cbn [mbind result_bind].
    match goal with |- context [append_samples xs ?s] => set (st1 := s) end.
    destruct (IH st1 (<[c := x]> cells) (S c)) as (st' & Hrun & Hc' & Hr' & Hn' & Hw').
    + subst st1. unfold window. cbn. rewrite lookup_insert_eq.
      by rewrite Hc, Nat2Z.id.
    + subst st1. cbn. lia.
    + subst st1. cbn. by rewrite length_insert.
    + subst st1. cbn. done.
    + rewrite length_insert. lia.
    + exists st'. split; [done|]. subst st1. cbn in *.
      repeat split; try done.
      * rewrite Hc'. f_equal. lia.
      * rewrite Hw'. f_equal.
        assert (<[c := x]> cells !! c = Some x) as Hx
          by (apply list_lookup_insert_eq; lia).
        rewrite (take_S_r _ _ x Hx).
        rewrite take_insert_ge by lia.
        rewrite drop_insert_lt by lia.
        rewrite <- app_assoc. cbn.
        by replace (c + S (length xs))%nat with (S (c + length xs)) by lia.
Qed.

(** [N] samples stored from the start of a window: the last one, and only
    it, wraps the count and sets the flag, and the block holds the [N]
    samples in order. *)
Lemma append_samples_window N xs st :
  aligned N st → Z.of_nat (length xs) = N →
  ∃ st', append_samples xs st = Ok st' ∧
    buf_count (inference st') = 0 ∧ buf_ready (inference st') = 1 ∧
    n_samples (inference st') = N ∧ window st' = Some xs.
Proof.
  intros (Hn & HN & Hc & Hr & cells & Hw & Hlen) Hxs.
  destruct xs as [|x pre _] using rev_ind; [cbn in Hxs; lia|].
  rewrite length_app in Hxs. cbn in Hxs.
  destruct (append_samples_within pre st cells 0) as (st1 & Hrun & Hc1 & Hr1 & Hn1 & Hw1);
    try done; try lia.
  rewrite append_samples_app, Hrun. cbn [mbind result_bind append_samples].
  cbn in Hw1, Hc1.
  rewrite (append_sample_wf st1 x _ Hw1); rewrite ?Hc1, ?Hn1, ?Hn;
    rewrite ?length_app, ?length_drop; try lia.
  replace (Z.of_nat (length pre) + 1 <? N)
    with false by (symmetry; apply Z.ltb_ge; lia).
  eexists. split; [done|]. unfold window. cbn.
  repeat split; try lia.
  rewrite lookup_insert_eq. f_equal.
  rewrite Nat2Z.id, take_0. cbn [app].
  replace (length pre) with (length pre + 0)%nat at 1 by lia.
  rewrite insert_app_r.
  assert (length (drop (length pre) cells) = 1%nat) as Hd
    by (rewrite length_drop; lia).
  destruct (drop (length pre) cells) as [|y [|? ?]]; cbn in Hd; try lia.
  done.
Qed.

Lemma session3_aligned : aligned 3 session3.
Proof.
  unfold aligned, window. repeat split; try reflexivity.
  exists [0; 0; 0]. split; reflexivity.
Defined.

(** ** The window protocol *)

(** C2. From an empty buffer with the flag clear, [N] successive appends
    bring [buf_count] back to 0 and set [buf_ready], and no shorter run
    does: after [j < N] appends the count is [j] and the flag is still
    clear.  Once the control loop has claimed the window the buffer is at
    the start of a window again, so this repeats for every window. *)
Theorem window_ready_at_Nth_append N st xs :
  aligned N st → Z.of_nat (length xs) = N →
  (∀ j, (j < length xs)%nat →
     ∃ sj, append_samples (take j xs) st = Ok sj ∧
           buf_count (inference sj) = Z.of_nat j ∧
           buf_ready (inference sj) = 0) ∧
  (∃ s', append_samples xs st = Ok s' ∧
         buf_count (inference s') = 0 ∧
         buf_ready (inference s') = 1 ∧
         aligned N (consumer_claim s')).
Proof.
  intros Hal Hxs. split.
  - intros j Hj.
    destruct Hal as (Hn & HN & Hc & Hr & cells & Hw & Hlen).
    destruct (append_samples_within (take j xs) st cells 0)
      as (sj & Hrun & Hcj & Hrj & _); try done; try lia.
    { rewrite length_take. lia. }
    exists sj. rewrite length_take in Hcj.
    repeat split; [done| |congruence].
    rewrite Hcj. f_equal. lia.
  - destruct (append_samples_window N xs st Hal Hxs)
      as (s' & Hrun & Hc' & Hr' & Hn' & Hw').
    exists s'. split_and!; try done.
    destruct Hal as (Hn & HN & Hrest).
    rewrite consumer_claim_spec, Hr'. unfold aligned, window in *. cbn.
    split_and!; try done; try lia. exists xs. by split.
Qed.

Lemma window_ready_at_Nth_append_witness :
  (∀ j, (j < 3)%nat →
     ∃ sj, append_samples (take j [7; 8; 9]) session3 = Ok sj ∧
           buf_count (inference sj) = Z.of_nat j ∧
           buf_ready (inference sj) = 0) ∧
  (∃ s', append_samples [7; 8; 9] session3 = Ok s' ∧
         buf_count (inference s') = 0 ∧
         buf_ready (inference s') = 1 ∧
         aligned 3 (consumer_claim s')).
Proof.
  apply (window_ready_at_Nth_append 3 session3 [7; 8; 9]).
  - exact session3_aligned.
  - reflexivity.
Defined.

Section Handoff.

Variable int16_to_float : Z → float.
Variable yield : state → result state.

(** Once the flag is set the control loop's wait ends at the first test,
    whatever the other tasks would do, and clears the flag. *)
Lemma record_when_ready fuel st :
  buf_ready (inference st) ≠ 0 →
  microphone_inference_record yield (S fuel) st =
    Ok (Some (true, set_inference (set_buf_ready 0 (inference st)) st)).
Proof.
  intros Hr. cbn. destruct (Z.eqb_spec (buf_ready (inference st)) 0); done.
Qed.

(** A range inside a live block is read as it lies there. *)
Lemma load_range_in_bounds p offset len st cells :
  heap st !! p = Some cells →
  (offset + len ≤ length cells)%nat →
  load_range p offset len st = Ok (take len (drop offset cells)).
Proof.
  intros Hp Hlen. unfold load_range.
  destruct (Nat.eqb_spec len 0) as [->|Hne]; [by rewrite take_0|].
  rewrite Hp.
  by replace (offset + len <=? length cells)%nat
    with true by (symmetry; apply Nat.leb_le; lia).
Qed.

(** Reading a whole live block through the signal's accessor. *)
Lemma get_data_whole st cells :
  window st = Some cells →
  microphone_audio_signal_get_data int16_to_float st 0 (length cells) =
    Ok (0, map int16_to_float cells).
Proof.
  intros Hw. unfold microphone_audio_signal_get_data.
  rewrite (load_range_in_bounds _ _ _ _ cells) by (done || cbn; lia).
  cbn. by rewrite firstn_all.
Qed.

(** C3 (amended). When exactly [N] samples were appended since the start
    of the window, that is, when the control loop claims and reads before
    the sampling task stores a further sample, the wait of
    [microphone_inference_record] ends with [true] and
    [microphone_audio_signal_get_data] over the whole window yields those
    [N] samples, in the order they were appended. *)
Theorem claimed_window_is_the_N_samples N st xs fuel :
  aligned N st → Z.of_nat (length xs) = N →
  ∃ s1 s2,
    append_samples xs st = Ok s1 ∧
    microphone_inference_record yield (S fuel) s1 = Ok (Some (true, s2)) ∧
    window s2 = Some xs ∧
    microphone_audio_signal_get_data int16_to_float s2 0 (length xs) =
      Ok (0, map int16_to_float xs).
Proof.
  intros Hal Hxs.
  destruct (append_samples_window N xs st Hal Hxs)
    as (s1 & Hrun & Hc1 & Hr1 & Hn1 & Hw1).
  exists s1, (set_inference (set_buf_ready 0 (inference s1)) s1).
  split; [done|]. split; [apply record_when_ready; lia|].
  assert (window (set_inference (set_buf_ready 0 (inference s1)) s1) = Some xs)
    as Hw2 by exact Hw1.
  split; [done|]. by apply get_data_whole.
Qed.

End Handoff.

Lemma claimed_window_is_the_N_samples_witness :
  ∃ s1 s2,
    append_samples [7; 8; 9] session3 = Ok s1 ∧
    microphone_inference_record sampler_yield 1 s1 = Ok (Some (true, s2)) ∧
    window s2 = Some [7; 8; 9] ∧
    microphone_audio_signal_get_data int16_to_float_scaled s2 0 3 =
      Ok (0, map int16_to_float_scaled [7; 8; 9]).
Proof.
  apply (claimed_window_is_the_N_samples
           int16_to_float_scaled sampler_yield 3 session3 [7; 8; 9] 0).
  - exact session3_aligned.
  - reflexivity.
Defined.

(** C3, as stated, fails: with window size 3 the sampling task stores a
    fourth sample before the control loop claims.  The one claim of the one
    ready transition then reads [4; 2; 3], while the last three samples
    appended were [2; 3; 4]. *)
Lemma late_claim_reads_rotated_window :
  ∃ s1 s2,
    run_events [Append 1; Append 2; Append 3; Append 4] session3 = Ok s1 ∧
    microphone_inference_record (λ s, Ok s) 1 s1 = Ok (Some (true, s2)) ∧
    microphone_audio_signal_get_data int16_to_float_scaled s2 0 3 =
      Ok (0, map int16_to_float_scaled [4; 2; 3]) ∧
    map int16_to_float_scaled [4; 2; 3] ≠ map int16_to_float_scaled [2; 3; 4].
Proof.
  eexists _, _. split; [vm_compute; reflexivity|].
  split; [vm_compute; reflexivity|].
  split; [vm_compute; reflexivity|].
  intros H.
  apply (f_equal (λ l, match l with
                       | f :: _ => PrimFloat.eqb f (int16_to_float_scaled 4)
                       | [] => false
                       end)) in H.
  vm_compute in H. discriminate.
Qed.

(** ** The sampling task, pass by pass *)

(** Any number of samples keeps a usable buffer usable; the count moves
    on modulo the window size and the flag is set as soon as it wraps. *)
Lemma append_samples_wf xs :
  ∀ st, wf st →
    ∃ st', append_samples xs st = Ok st' ∧ wf st' ∧
      n_samples (inference st') = n_samples (inference st) ∧
      buffer (inference st') = buffer (inference st) ∧
      buf_count (inference st') =
        (buf_count (inference st) + Z.of_nat (length xs))
          mod n_samples (inference st) ∧
      buf_ready (inference st') =
        (if buf_count (inference st) + Z.of_nat (length xs)
            <? n_samples (inference st)
         then buf_ready (inference st) else 1) ∧
      sampleBuffer st' = sampleBuffer st ∧
      record_status st' = record_status st ∧
      tasks st' = tasks st ∧ gpio st' = gpio st ∧
      console st' = console st ∧ adc st' = adc st.
Proof.
  induction xs as [|x xs IH]; intros st Hwf.
  - exists st. cbn. pose proof Hwf as (Hn & Hc & _).
    rewrite Z.add_0_r, Z.mod_small by lia.
    replace (buf_count (inference st) <? n_samples (inference st))
      with true by (symmetry; apply Z.ltb_lt; lia).
    split_and!; done.
  - destruct (append_sample_step st x Hwf)
      as (s1 & Hrun & Hwf1 & Hn1 & Hp1 & Hc1 & Hr1 & F1 & F2 & F3 & F4 & F5 & F6).
    destruct (IH s1 Hwf1)
      as (s2 & Hrun2 & Hwf2 & Hn2 & Hp2 & Hc2 & Hr2 & G1 & G2 & G3 & G4 & G5 & G6).
    exists s2. cbn [append_samples]. rewrite Hrun. cbn [mbind result_bind].
    split; [done|]. split; [done|].
    pose proof Hwf as (Hn & Hc & _).
    set (n := n_samples (inference st)) in *.
    set (c := buf_count (inference st)) in *.
    rewrite Hn1 in *. rewrite Hc1 in *. rewrite Hr1 in *.
    cbn [length]. rewrite Nat2Z.inj_succ.
    repeat split; try congruence.
    + rewrite Hc2, Z.add_mod_idemp_l by lia. f_equal. lia.
    + rewrite Hr2.
      destruct (Z.ltb_spec (c + 1) n).
      * rewrite Z.mod_small by lia.
        destruct (Z.ltb_spec (c + 1 + Z.of_nat (length xs)) n),
                 (Z.ltb_spec (c + Z.succ (Z.of_nat (length xs))) n);
          try lia; done.
      * destruct (Z.ltb_spec (c + Z.succ (Z.of_nat (length xs))) n);
          [lia|].
        by destruct (_ <? _).
Qed.

(** A stored sample touches nothing but the buffer, whatever its state. *)
Lemma append_sample_frame x st st' :
  append_sample x st = Ok st' →
  sampleBuffer st' = sampleBuffer st ∧ record_status st' = record_status st ∧
  tasks st' = tasks st ∧ gpio st' = gpio st ∧ console st' = console st ∧
  adc st' = adc st.
Proof.
  unfold append_sample, store.
  destruct (heap st !! buffer (inference st)) as [cells|]; [|done].
  destruct (_ && _); [|done]. cbn.
  destruct (_ <=? _); intros [= <-]; done.
Qed.

(** The loop of [audio_inference_callback] forwards the cells of
    [sampleBuffer] it ranges over, in order. *)
Lemma callback_loop_appends k :
  ∀ from st, (from + k ≤ length (sampleBuffer st))%nat →
    callback_loop k from st =
      append_samples (take k (drop from (sampleBuffer st))) st.
Proof.
  induction k as [|k IH]; intros from st Hlen; [done|].
  destruct (lookup_lt_is_Some_2 (sampleBuffer st) from) as [x Hx]; [lia|].
  rewrite (drop_S _ _ _ Hx). cbn [callback_loop take append_samples].
  unfold callback_body. rewrite Hx.
  destruct (append_sample x st) as [s1|f] eqn:Hs; [|done].
  cbn [mbind result_bind].
  destruct (append_sample_frame _ _ _ Hs) as (Hsb & _).
  rewrite IH by (rewrite Hsb; lia). by rewrite Hsb.
Qed.

Lemma take_pad (l : list Z) (k m : nat) :
  (k ≤ m)%nat →
  take k (l ++ replicate m 0) = take k l ++ replicate (k - length l) 0.
Proof.
  intros H. rewrite take_app, take_replicate. do 2 f_equal. lia.
Qed.

(** The readings the converter delivers next, 0 past the recorded ones. *)
Lemma read_loop_spec k :
  ∀ from st, (from + k ≤ length (sampleBuffer st))%nat →
    ∃ st', read_loop k from st = Ok st' ∧
      adc st' = drop k (adc st) ∧
      sampleBuffer st' =
        take from (sampleBuffer st)
          ++ map to_int16 (take k (adc st ++ replicate k 0))
          ++ drop (from + k) (sampleBuffer st) ∧
      inference st' = inference st ∧ heap st' = heap st ∧
      record_status st' = record_status st ∧ tasks st' = tasks st ∧
      gpio st' = gpio st ∧ console st' = console st.
Proof.
  induction k as [|k IH]; intros from st Hlen.
  - exists st. cbn [read_loop drop].
    rewrite Nat.add_0_r, take_0. cbn [map app]. rewrite take_drop.
    split_and!; done.
  - cbn [read_loop]. unfold read_body, adc1_get_raw.
    destruct (adc st) as [|r rest] eqn:Ha.
    + replace (from <? length (sampleBuffer st))%nat
        with true by (symmetry; apply Nat.ltb_lt; lia).
      cbn [mbind result_bind].
      match goal with |- context [read_loop k _ ?s] => set (s1 := s) end.
      destruct (IH (S from) s1) as (s2 & Hrun & Hadc & Hsb & Hrest).
      { subst s1. cbn. rewrite length_insert. lia. }
      exists s2. split; [done|]. subst s1. cbn in *.
      rewrite Ha in Hadc, Hsb. cbn in Hsb.
      rewrite Hadc, Hsb. rewrite !drop_nil.
      split; [done|]. split; [|done].
      assert (<[from := to_int16 0]> (sampleBuffer st) !! from
              = Some (to_int16 0)) as Hx
        by (apply list_lookup_insert_eq; lia).
      rewrite (take_S_r _ _ _ Hx), take_insert_ge by lia.
      rewrite drop_insert_lt by lia.
      rewrite <- app_assoc. cbn.
      by replace (from + S k)%nat with (S (from + k)) by lia.
    + cbn [set_adc sampleBuffer].
      replace (from <? length (sampleBuffer st))%nat
        with true by (symmetry; apply Nat.ltb_lt; lia).
      cbn [mbind result_bind].
      match goal with |- context [read_loop k _ ?s] => set (s1 := s) end.
      destruct (IH (S from) s1) as (s2 & Hrun & Hadc & Hsb & Hrest).
      { subst s1. cbn. rewrite length_insert. lia. }
      exists s2. split; [done|]. subst s1. cbn in *.
      rewrite Hadc, Hsb.
      split; [done|]. split; [|done].
      assert (<[from := to_int16 r]> (sampleBuffer st) !! from
              = Some (to_int16 r)) as Hx
        by (apply list_lookup_insert_eq; lia).
      rewrite (take_S_r _ _ _ Hx), take_insert_ge by lia.
      rewrite drop_insert_lt by lia.
      rewrite <- app_assoc. cbn.
      replace (from + S k)%nat with (S (from + k)) by lia.
      change (0 :: replicate k 0) with (replicate (S k) 0).
      by rewrite !take_pad by lia.
Qed.

Lemma u32_sample_buffer_size : u32 sample_buffer_size = sample_buffer_size.
Proof. reflexivity. Qed.

(** One pass of the task as [microphone_inference_start] creates it, on a
    usable buffer and with recording on: [sample_buffer_size] readings are
    taken from the converter into [sampleBuffer], and those same values
    are appended to the inference buffer. *)
Lemma capture_cycle_running s :
  wf s → record_status s = true →
  length (sampleBuffer s) = Z.to_nat sample_buffer_size →
  ∃ s1 s2,
    read_loop (Z.to_nat sample_buffer_size) 0 s = Ok s1 ∧
    adc s1 = drop (Z.to_nat sample_buffer_size) (adc s) ∧
    sampleBuffer s1 =
      map to_int16
        (take (Z.to_nat sample_buffer_size)
              (adc s ++ replicate (Z.to_nat sample_buffer_size) 0)) ∧
    length (sampleBuffer s1) = Z.to_nat sample_buffer_size ∧
    append_samples (sampleBuffer s1) s1 = Ok s2 ∧
    capture_cycle sample_buffer_size s = Ok (true, s2) ∧
    wf s2 ∧
    n_samples (inference s2) = n_samples (inference s) ∧
    buf_count (inference s2) =
      (buf_count (inference s) + sample_buffer_size)
        mod n_samples (inference s) ∧
    buf_ready (inference s2) =
      (if buf_count (inference s) + sample_buffer_size
          <? n_samples (inference s)
       then buf_ready (inference s) else 1) ∧
    record_status s2 = true ∧
    length (sampleBuffer s2) = Z.to_nat sample_buffer_size ∧
    tasks s2 = tasks s ∧ gpio s2 = gpio s ∧ console s2 = console s.
Proof.
  intros Hwf Hrs Hlen.
  remember (Z.to_nat sample_buffer_size) as B eqn:HB.
  destruct (read_loop_spec B 0 s) as (s1 & Hread & Hadc & Hsb & Hinf & Hheap & Hrs1 & Ht1 & Hg1 & Hc1);
    [lia|].
  rewrite take_0, drop_ge in Hsb by (cbn; lia).
  cbn [app] in Hsb. rewrite app_nil_r in Hsb.
  assert (length (sampleBuffer s1) = B) as Hlen1.
  { rewrite Hsb, length_map, length_take, length_app, length_replicate. lia. }
  assert (wf s1) as Hwf1.
  { unfold wf, window in *. by rewrite Hinf, Hheap. }
  destruct (append_samples_wf (sampleBuffer s1) s1 Hwf1)
    as (s2 & Hrun & Hwf2 & Hn2 & _ & Hc2 & Hr2 & Hsb2 & Hrs2 & Ht2 & Hg2 & Hco2 & _).
  exists s1, s2.
  split; [done|]. split; [done|]. split; [done|]. split; [done|].
  split; [done|].
  split.
  { unfold capture_cycle. rewrite Hrs, u32_sample_buffer_size, <- HB, Hread.
    cbn [mbind result_bind]. rewrite Hrs1, Hrs.
    unfold audio_inference_callback. rewrite <- HB.
    rewrite callback_loop_appends by lia.
    rewrite drop_0, <- Hlen1, firstn_all, Hrun. done. }
  split; [done|].
  rewrite Hlen1 in Hc2, Hr2. rewrite Hinf in Hn2, Hc2, Hr2.
  assert (Z.of_nat B = sample_buffer_size) as HBz by (subst B; reflexivity).
  rewrite HBz in Hc2, Hr2.
  split_and!; try congruence.
Qed.

(** *** The two descriptions of the task agree *)

Lemma capture_steps_app a b arg c st :
  capture_steps (a + b) arg c st =
    ('(c1, s1) ← capture_steps a arg c st ; capture_steps b arg c1 s1).
Proof.
  revert c st. induction a as [|a IH]; intros c st; [done|].
  cbn [Nat.add capture_steps].
  destruct (capture_step arg c st) as [[c1 s1]|]; cbn [mbind result_bind];
    [apply IH|done].
Qed.

Lemma capture_steps_reading arg k :
  ∀ i st st', (i + k ≤ Z.to_nat (u32 arg))%nat →
    read_loop k i st = Ok st' →
    capture_steps k arg (Reading i) st = Ok (Reading (i + k), st').
Proof.
  induction k as [|k IH]; intros i st st' Hik; cbn [read_loop capture_steps].
  - intros [= <-]. by rewrite Nat.add_0_r.
  - unfold capture_step.
    replace (i <? Z.to_nat (u32 arg))%nat
      with true by (symmetry; apply Nat.ltb_lt; lia).
    destruct (read_body i st) as [s1|]; cbn [mbind result_bind]; [|done].
    intros H. rewrite (IH (S i) s1 st') by (done || lia).
    do 3 f_equal. lia.
Qed.

Lemma capture_steps_forwarding arg k :
  ∀ i st st', (i + k ≤ Z.to_nat (u32 arg))%nat →
    callback_loop k i st = Ok st' →
    capture_steps k arg (Forwarding i) st = Ok (Forwarding (i + k), st').
Proof.
  induction k as [|k IH]; intros i st st' Hik;
    cbn [callback_loop capture_steps].
  - intros [= <-]. by rewrite Nat.add_0_r.
  - unfold capture_step.
    replace (i <? Z.to_nat (u32 arg))%nat
      with true by (symmetry; apply Nat.ltb_lt; lia).
    destruct (callback_body i st) as [s1|]; cbn [mbind result_bind]; [|done].
    intros H. rewrite (IH (S i) s1 st') by (done || lia).
    do 3 f_equal. lia.
Qed.

(** A pass of the loop that goes on, as [capture_cycle] computes it, is
    what the task reaches statement by statement: the test at the head,
    the readings, the second test, the forwarding, and it then stands in
    [vTaskDelay]. *)
Lemma capture_steps_cycle arg st st2 :
  capture_cycle arg st = Ok (true, st2) →
  capture_steps (1 + (Z.to_nat (u32 arg) + (2 + (Z.to_nat (u32 arg) + 1))))
                arg LoopHead st
    = Ok (Delaying, st2).
Proof.
  unfold capture_cycle, audio_inference_callback.
  set (n := Z.to_nat (u32 arg)).
  destruct (record_status st) eqn:Hrs; [|done].
  destruct (read_loop n 0 st) as [s1|] eqn:Hread; [|done].
  cbn [mbind result_bind].
  destruct (record_status s1) eqn:Hrs1; [|done].
  destruct (callback_loop n 0 s1) as [s2|] eqn:Hcb; [|done].
  cbn [mbind result_bind]. intros [= <-].
  rewrite capture_steps_app. cbn [capture_steps capture_step].
  rewrite Hrs. cbn [mbind result_bind].
  rewrite capture_steps_app.
  rewrite (capture_steps_reading arg n 0 st s1) by (done || (subst n; lia)).
  cbn [mbind result_bind].
  rewrite capture_steps_app. cbn [capture_steps capture_step Nat.add].
  fold n. rewrite Nat.ltb_irrefl. cbn [mbind result_bind capture_step].
  rewrite Hrs1. cbn [mbind result_bind].
  rewrite capture_steps_app.
  rewrite (capture_steps_forwarding arg n 0 s1 s2) by (done || (subst n; lia)).
  cbn [mbind result_bind capture_steps capture_step Nat.add].
  fold n. by rewrite Nat.ltb_irrefl.
Qed.

(** ** Start *)

(** A successful start leaves an empty window of [n] samples in a live
    block large enough for it, recording on, and one more task, created
    with [sample_buffer_size] as its argument. *)
Lemma start_success malloc n st0 st :
  malloc_sound malloc → 0 < n < 2 ^ 31 →
  microphone_inference_start malloc n st0 = (true, st) →
  wf st ∧ n_samples (inference st) = n ∧
  buf_count (inference st) = 0 ∧ buf_ready (inference st) = 0 ∧
  record_status st = true ∧
  tasks st = tasks st0 ++ [sample_buffer_size] ∧
  sampleBuffer st = sampleBuffer st0 ∧ gpio st = gpio st0.
Proof.
  intros Hm Hn. unfold microphone_inference_start.
  rewrite (u32_small n) by lia.
  rewrite u32_small by (unfold sizeof_int16; lia).
  destruct (malloc _ _) as [p h] eqn:Hp.
  destruct (Z.eqb_spec p 0) as [->|Hne]; [done|].
  intros [= <-]. unfold wf, window. cbn.
  destruct (Hm _ _ _ _ Hp Hne) as (cells & Hc & Hlen).
  split_and!; try done; try lia.
  exists cells. split; [done|]. unfold sizeof_int16 in Hlen. lia.
Qed.

Lemma malloc_at_sound addr limit : malloc_sound (malloc_at addr limit).
Proof.
  intros size h p h' Hm Hp. unfold malloc_at in Hm.
  destruct (_ && _) eqn:Hok; [|by inversion Hm; subst].
  apply andb_true_iff in Hok as [Hok _].
  apply andb_true_iff in Hok as [Hpos%Z.ltb_lt _].
  inversion Hm; subst. eexists. rewrite lookup_insert_eq. split; [done|].
  rewrite length_replicate. unfold sizeof_int16.
  rewrite Z2Nat.id by (apply Z.div_pos; lia).
  pose proof (Z.div_mod (size + 2 - 1) 2 ltac:(lia)).
  pose proof (Z.mod_pos_bound (size + 2 - 1) 2 ltac:(lia)). lia.
Qed.

(** C1 (amended). A successful [microphone_inference_start] creates one
    task, and its argument is [sample_buffer_size] (2048), whatever the
    window size.  Each pass of that task, over a usable buffer and with
    recording on, takes exactly [sample_buffer_size] readings from the
    converter into [sampleBuffer] and appends exactly those
    [sample_buffer_size] values to the inference buffer. *)
Theorem started_task_bound_to_sample_buffer_size malloc n st0 st s :
  microphone_inference_start malloc n st0 = (true, st) →
  wf s → record_status s = true →
  length (sampleBuffer s) = Z.to_nat sample_buffer_size →
  tasks st = tasks st0 ++ [sample_buffer_size] ∧
  ∃ s1 s2,
    read_loop (Z.to_nat sample_buffer_size) 0 s = Ok s1 ∧
    adc s1 = drop (Z.to_nat sample_buffer_size) (adc s) ∧
    sampleBuffer s1 =
      map to_int16
        (take (Z.to_nat sample_buffer_size)
              (adc s ++ replicate (Z.to_nat sample_buffer_size) 0)) ∧
    length (sampleBuffer s1) = Z.to_nat sample_buffer_size ∧
    append_samples (sampleBuffer s1) s1 = Ok s2 ∧
    capture_cycle sample_buffer_size s = Ok (true, s2).
Proof.
  intros Hstart Hwf Hrs Hlen. split.
  - unfold microphone_inference_start in Hstart.
    destruct (malloc _ _) as [p h]. destruct (p =? 0); [done|].
    by inversion Hstart.
  - destruct (capture_cycle_running s Hwf Hrs Hlen)
      as (s1 & s2 & H1 & H2 & H3 & H4 & H5 & H6 & _).
    by exists s1, s2.
Qed.

Lemma started_task_bound_to_sample_buffer_size_witness :
  tasks session3 = tasks (boot []) ++ [sample_buffer_size] ∧
  ∃ s1 s2,
    read_loop (Z.to_nat sample_buffer_size) 0 session3 = Ok s1 ∧
    adc s1 = drop (Z.to_nat sample_buffer_size) (adc session3) ∧
    sampleBuffer s1 =
      map to_int16
        (take (Z.to_nat sample_buffer_size)
              (adc session3 ++ replicate (Z.to_nat sample_buffer_size) 0)) ∧
    length (sampleBuffer s1) = Z.to_nat sample_buffer_size ∧
    append_samples (sampleBuffer s1) s1 = Ok s2 ∧
    capture_cycle sample_buffer_size session3 = Ok (true, s2).
Proof.
  apply (started_task_bound_to_sample_buffer_size
           (malloc_at 4096 65536) 3 (boot []) session3 session3).
  - reflexivity.
  - exact (aligned_wf 3 session3 session3_aligned).
  - reflexivity.
  - reflexivity.
Defined.

(** C1, as stated, fails: started with a window of 16000 samples, the
    task is created with the argument 2048; one pass takes 2048 of the
    16000 readings and appends 2048 samples, which does not complete the
    window. *)
Lemma started_task_ignores_window_size :
  fst (microphone_inference_start (malloc_at 4096 65536) 16000
         (boot (replicate (Z.to_nat 16000) 1))) = true ∧
  tasks session16000 = [2048] ∧
  length (adc session16000) = Z.to_nat 16000 ∧
  pass_summary (capture_cycle 2048 session16000)
    = Some (true, Z.to_nat (16000 - 2048), 2048, 0).
Proof.
  split_and!; vm_compute; reflexivity.
Qed.

(** ** Interleavings of the two contexts *)

(** Whatever the order of appends and claims, a usable buffer stays
    usable and keeps its window size. *)
Lemma run_events_wf evs :
  ∀ st, wf st →
    ∃ st', run_events evs st = Ok st' ∧ wf st' ∧
           n_samples (inference st') = n_samples (inference st).
Proof.
  induction evs as [|e evs IH]; intros st Hwf; [by exists st|].
  cbn [run_events]. destruct e as [x|]; cbn [step_event].
  - destruct (append_sample_step st x Hwf) as (s1 & Hrun & Hwf1 & Hn1 & _).
    rewrite Hrun. cbn [mbind result_bind].
    destruct (IH s1 Hwf1) as (s2 & Hrun2 & Hwf2 & Hn2).
    exists s2. split_and!; [done|done|congruence].
  - cbn [mbind result_bind].
    destruct (IH _ (consumer_claim_wf st Hwf)) as (s2 & Hrun2 & Hwf2 & Hn2).
    exists s2. split_and!; [done|done|].
    rewrite Hn2. apply consumer_claim_fields.
Qed.

(** C5. After a successful start with window size [n], whatever the two
    contexts then do, every append is carried out (its store falls
    inside the block) and [0 <= buf_count <= n_samples] holds; the count
    is in fact strictly below [n_samples], so the next append writes at
    an index below [n_samples]. *)
Theorem fill_count_within_window malloc n st0 st evs :
  malloc_sound malloc → 0 < n < 2 ^ 31 →
  microphone_inference_start malloc n st0 = (true, st) →
  ∃ st', run_events evs st = Ok st' ∧
    n_samples (inference st') = n ∧
    0 ≤ buf_count (inference st') ≤ n_samples (inference st') ∧
    buf_count (inference st') < n_samples (inference st') ∧
    ∃ cells, window st' = Some cells ∧
             buf_count (inference st') < Z.of_nat (length cells).
Proof.
  intros Hm Hn Hstart.
  destruct (start_success malloc n st0 st Hm Hn Hstart) as (Hwf & Hns & _).
  destruct (run_events_wf evs st Hwf) as (st' & Hrun & Hwf' & Hn').
  exists st'. destruct Hwf' as (H1 & H2 & cells & Hw & Hlen).
  split_and!; try done; try lia.
  exists cells. split; [done|lia].
Qed.

Lemma fill_count_within_window_witness :
  ∃ st', run_events [Append 1; Append 2; Claim; Append 3; Append 4] session3
           = Ok st' ∧
    n_samples (inference st') = 3 ∧
    0 ≤ buf_count (inference st') ≤ n_samples (inference st') ∧
    buf_count (inference st') < n_samples (inference st') ∧
    ∃ cells, window st' = Some cells ∧
             buf_count (inference st') < Z.of_nat (length cells).
Proof.
  apply (fill_count_within_window (malloc_at 4096 65536) 3 (boot []) session3).
  - apply malloc_at_sound.
  - lia.
  - reflexivity.
Defined.

(** With every window claimed before the next sample is stored, the flag
    is never seen set next to a nonzero count. *)
Lemma claimed_in_time_invariant evs :
  ∀ st, wf st →
    (buf_ready (inference st) ≠ 0 → buf_count (inference st) = 0) →
    claimed_in_time evs st = true →
    ∃ st', run_events evs st = Ok st' ∧ wf st' ∧
      (buf_ready (inference st') ≠ 0 → buf_count (inference st') = 0).
Proof.
  induction evs as [|e evs IH]; intros st Hwf Hinv Hsched; [by exists st|].
  cbn [run_events claimed_in_time] in *.
  apply andb_true_iff in Hsched as [Hen Hrest].
  destruct e as [x|]; cbn [step_event] in *.
  - apply Z.eqb_eq in Hen.
    destruct (append_sample_step st x Hwf)
      as (s1 & Hrun & Hwf1 & Hn1 & _ & Hc1 & Hr1 & _).
    rewrite Hrun in *. cbn [mbind result_bind].
    apply (IH s1); try done.
    rewrite Hr1, Hc1, Hen. destruct Hwf as (Hn & Hc & _).
    destruct (Z.ltb_spec (buf_count (inference st) + 1)
                         (n_samples (inference st))); [done|].
    intros _.
    replace (buf_count (inference st) + 1)
      with (n_samples (inference st)) by lia.
    apply Z.mod_same. lia.
  - cbn [mbind result_bind].
    apply IH; try done; [by apply consumer_claim_wf|].
    destruct (consumer_claim_fields st) as (_ & _ & Hr). by rewrite Hr.
Qed.

(** C4 (amended). In every state reached from the start of a window by
    appends and claims in which each completed window is claimed before
    the next sample is stored, [buf_ready] set implies [buf_count = 0]:
    the append that sets the flag has reset the count in the same step. *)
Theorem ready_implies_empty_when_claimed_in_time N st evs st' :
  aligned N st → claimed_in_time evs st = true →
  run_events evs st = Ok st' →
  buf_ready (inference st') ≠ 0 → buf_count (inference st') = 0.
Proof.
  intros Hal Hsched Hrun.
  destruct (claimed_in_time_invariant evs st) as (s & Hrun' & _ & Hinv);
    try done.
  - by apply (aligned_wf N).
  - destruct Hal as (_ & _ & _ & Hr & _). by rewrite Hr.
  - rewrite Hrun in Hrun'. by inversion Hrun'; subst.
Qed.

Lemma ready_implies_empty_when_claimed_in_time_witness :
  buf_count (inference session3_ready) = 0.
Proof.
  apply (ready_implies_empty_when_claimed_in_time
           3 session3 [Append 1; Append 2; Append 3] session3_ready).
  - exact session3_aligned.
  - reflexivity.
  - reflexivity.
  - vm_compute. discriminate.
Defined.

(** C4, as stated, fails: with window size 3, a fourth sample stored
    before the control loop claims leaves the flag set and the count
    at 1. *)
Lemma ready_with_nonzero_count :
  ∃ s, run_events [Append 1; Append 2; Append 3; Append 4] session3 = Ok s ∧
       buf_ready (inference s) = 1 ∧ buf_count (inference s) = 1.
Proof.
  eexists. split; [vm_compute; reflexivity|]. split; reflexivity.
Qed.

(** ** Failure to start, and stopping twice *)

(** C6. When the allocator returns [NULL], [microphone_inference_start]
    returns [false] having done nothing but store that [NULL] in
    [inference.buffer]: no task is created, [record_status] and the
    fields [buf_count], [buf_ready] and [n_samples] keep their values. *)
Theorem start_allocation_failure malloc n st h' :
  malloc (u32 (u32 n * sizeof_int16)) (heap st) = (0, h') →
  ∃ st', microphone_inference_start malloc n st = (false, st') ∧
    tasks st' = tasks st ∧
    record_status st' = record_status st ∧
    buf_count (inference st') = buf_count (inference st) ∧
    buf_ready (inference st') = buf_ready (inference st) ∧
    n_samples (inference st') = n_samples (inference st) ∧
    buffer (inference st') = 0 ∧ heap st' = h' ∧
    sampleBuffer st' = sampleBuffer st ∧ gpio st' = gpio st ∧
    console st' = console st ∧ adc st' = adc st.
Proof.
  intros Hm. unfold microphone_inference_start. rewrite Hm. cbn.
  eexists. split; [done|]. cbn. split_and!; done.
Qed.

Lemma start_allocation_failure_witness :
  ∃ st', microphone_inference_start (malloc_at 4096 1024) 16000 (boot [])
           = (false, st') ∧
    tasks st' = tasks (boot []) ∧
    record_status st' = record_status (boot []) ∧
    buf_count (inference st') = buf_count (inference (boot [])) ∧
    buf_ready (inference st') = buf_ready (inference (boot [])) ∧
    n_samples (inference st') = n_samples (inference (boot [])) ∧
    buffer (inference st') = 0 ∧ heap st' = ∅ ∧
    sampleBuffer st' = sampleBuffer (boot []) ∧ gpio st' = gpio (boot []) ∧
    console st' = console (boot []) ∧ adc st' = adc (boot []).
Proof.
  apply (start_allocation_failure (malloc_at 4096 1024) 16000 (boot []) ∅).
  reflexivity.
Defined.

(** C7 (amended). After a call of [microphone_inference_end] that
    returned, [record_status] is false and [inference.buffer] still holds
    the address it held.  A second call is a no-op only when that address
    is [NULL]; otherwise it passes the released block to [ei_free] once
    more, a double free. *)
Theorem second_stop_frees_again st st' :
  microphone_inference_end st = Ok st' →
  record_status st' = false ∧
  buffer (inference st') = buffer (inference st) ∧
  (buffer (inference st) = 0 → microphone_inference_end st' = Ok st') ∧
  (buffer (inference st) ≠ 0 →
     microphone_inference_end st' = Fault DoubleFree).
Proof.
  unfold microphone_inference_end, ei_free. cbn.
  destruct (Z.eqb_spec (buffer (inference st)) 0) as [Hz|Hnz].
  - intros [= <-]. cbn. rewrite Hz. cbn. split_and!; done.
  - destruct (heap st !! buffer (inference st)) eqn:Hl; [|done].
    intros [= <-]. cbn.
    destruct (Z.eqb_spec (buffer (inference st)) 0); [done|].
    rewrite lookup_delete_eq. split_and!; done.
Qed.

Lemma second_stop_frees_again_witness :
  record_status (from_result session3 (microphone_inference_end session3))
    = false ∧
  buffer (inference (from_result session3 (microphone_inference_end session3)))
    = buffer (inference session3) ∧
  (buffer (inference session3) = 0 →
     microphone_inference_end
       (from_result session3 (microphone_inference_end session3))
     = Ok (from_result session3 (microphone_inference_end session3))) ∧
  (buffer (inference session3) ≠ 0 →
     microphone_inference_end
       (from_result session3 (microphone_inference_end session3))
     = Fault DoubleFree).
Proof.
  apply (second_stop_frees_again session3).
  reflexivity.
Defined.

(** C7, as stated, fails: after a session that was started and stopped,
    a second stop frees the block again. *)
Lemma double_stop_double_free :
  ∃ s1, microphone_inference_end session3 = Ok s1 ∧
        microphone_inference_end s1 = Fault DoubleFree.
Proof.
  eexists. split; vm_compute; reflexivity.
Qed.

(** ** Stopping the sampling task *)

Lemma read_body_frame i st :
  (i < length (sampleBuffer st))%nat →
  ∃ st', read_body i st = Ok st' ∧
    inference st' = inference st ∧ heap st' = heap st ∧
    record_status st' = record_status st ∧
    length (sampleBuffer st') = length (sampleBuffer st) ∧
    tasks st' = tasks st ∧ gpio st' = gpio st ∧ console st' = console st.
Proof.
  intros Hi. unfold read_body, adc1_get_raw.
  destruct (adc st) as [|r rest]; cbn [set_adc sampleBuffer];
    (replace (i <? length (sampleBuffer st))%nat
       with true by (symmetry; apply Nat.ltb_lt; lia));
    eexists; (split; [done|]); cbn; rewrite length_insert; split_and!; done.
Qed.

(** One statement of a task that is outside the forwarding loop while
    [record_status] is false: the inference buffer is not touched, the
    task stays outside that loop and comes closer to its exit. *)
Lemma capture_step_stopped arg c st :
  record_status st = false → is_forwarding c = false →
  (Z.to_nat (u32 arg) ≤ length (sampleBuffer st))%nat →
  ∃ c' st', capture_step arg c st = Ok (c', st') ∧
    inference st' = inference st ∧ heap st' = heap st ∧
    record_status st' = false ∧
    length (sampleBuffer st') = length (sampleBuffer st) ∧
    is_forwarding c' = false ∧
    (steps_to_exit (Z.to_nat (u32 arg)) c'
       ≤ steps_to_exit (Z.to_nat (u32 arg)) c - 1)%nat.
Proof.
  intros Hrs Hc Hlen. unfold capture_step.
  set (n := Z.to_nat (u32 arg)) in *.
  destruct c as [|i| |i| |]; try done; rewrite ?Hrs.
  - exists Deleted, st. cbn. split_and!; done || lia.
  - destruct (Nat.ltb_spec i n).
    + destruct (read_body_frame i st) as (s1 & Hrun & H1 & H2 & H3 & H4 & _);
        [lia|].
      rewrite Hrun. cbn [mbind result_bind].
      exists (Reading (S i)), s1. cbn. split_and!; try done; try congruence.
      lia.
    + exists Recheck, st. cbn. split_and!; done || lia.
  - exists Deleted, st. cbn. split_and!; done || lia.
  - exists LoopHead, st. cbn. split_and!; done || lia.
  - exists Deleted, st. cbn. split_and!; done || lia.
Qed.

Lemma capture_steps_stopped k :
  ∀ arg c st,
    record_status st = false → is_forwarding c = false →
    (Z.to_nat (u32 arg) ≤ length (sampleBuffer st))%nat →
    ∃ c' st', capture_steps k arg c st = Ok (c', st') ∧
      inference st' = inference st ∧ heap st' = heap st ∧
      record_status st' = false ∧
      is_forwarding c' = false ∧
      (steps_to_exit (Z.to_nat (u32 arg)) c'
         ≤ steps_to_exit (Z.to_nat (u32 arg)) c - k)%nat.
Proof.
  induction k as [|k IH]; intros arg c st Hrs Hc Hlen.
  - exists c, st. cbn. split_and!; done || lia.
  - destruct (capture_step_stopped arg c st Hrs Hc Hlen)
      as (c1 & s1 & Hstep & Hi1 & Hh1 & Hrs1 & Hl1 & Hc1 & Hm1).
    destruct (IH arg c1 s1 Hrs1 Hc1) as (c2 & s2 & Hrun & Hi2 & Hh2 & Hrs2 & Hc2 & Hm2);
      [lia|].
    exists c2, s2. cbn [capture_steps]. rewrite Hstep.
    cbn [mbind result_bind]. split_and!; try done; try congruence. lia.
Qed.

(** Started, or back at the head of its loop, with [record_status] false,
    the task returns at once and leaves the state as it is. *)
Lemma capture_samples_stopped fuel arg st :
  record_status st = false →
  capture_samples (S fuel) arg st = Ok (Some st).
Proof.
  intros Hrs. cbn [capture_samples]. unfold capture_cycle. by rewrite Hrs.
Qed.

Lemma capture_steps_deleted k arg st :
  capture_steps k arg Deleted st = Ok (Deleted, st).
Proof. induction k as [|k IH]; [done|]. cbn. apply IH. Qed.

(** A task inside the forwarding loop when [record_status] turns false,
    the buffer being usable: the rest of its batch is appended, and three
    statements later (the end of the loop, the sleep, the test at the
    head) the task has deleted itself, having appended nothing more. *)
Lemma capture_steps_forwarding_stopped arg i st :
  record_status st = false → wf st →
  (Z.to_nat (u32 arg) ≤ length (sampleBuffer st))%nat →
  (i ≤ Z.to_nat (u32 arg))%nat →
  ∃ st',
    append_samples
      (take (Z.to_nat (u32 arg) - i) (drop i (sampleBuffer st))) st = Ok st' ∧
    capture_steps (Z.to_nat (u32 arg) - i) arg (Forwarding i) st
      = Ok (Forwarding (Z.to_nat (u32 arg)), st') ∧
    (∀ j, (Z.to_nat (u32 arg) - i + 3 ≤ j)%nat →
       capture_steps j arg (Forwarding i) st = Ok (Deleted, st')) ∧
    buf_count (inference st') =
      (buf_count (inference st) + Z.of_nat (Z.to_nat (u32 arg) - i))
        mod n_samples (inference st) ∧
    record_status st' = false.
Proof.
  intros Hrs Hwf Hlen Hi. set (n := Z.to_nat (u32 arg)) in *.
  destruct (append_samples_wf (take (n - i) (drop i (sampleBuffer st))) st Hwf)
    as (st' & Hrun & _ & _ & _ & Hc & _ & _ & Hrs' & _).
  assert (length (take (n - i) (drop i (sampleBuffer st))) = (n - i)%nat)
    as Hl by (rewrite length_take, length_drop; lia).
  rewrite Hl in Hc.
  assert (capture_steps (n - i) arg (Forwarding i) st
          = Ok (Forwarding n, st')) as Hfw.
  { replace (Forwarding n) with (Forwarding (i + (n - i)))
      by (f_equal; lia).
    apply capture_steps_forwarding; [fold n; lia|].
    rewrite callback_loop_appends by lia. done. }
  exists st'. split_and!; try done; try congruence.
  intros j Hj. replace j with ((n - i) + (3 + (j - (n - i) - 3)))%nat by lia.
  rewrite capture_steps_app, Hfw. cbn [mbind result_bind].
  rewrite capture_steps_app. cbn [capture_steps capture_step].
  fold n. rewrite Nat.ltb_irrefl.
  cbn [mbind result_bind capture_step].
  rewrite Hrs', Hrs. cbn [mbind result_bind].
  apply capture_steps_deleted.
Qed.

(** C9 (amended). Once [record_status] is false, a task that is not
    inside the forwarding loop of [audio_inference_callback] never appends
    again: whatever number of its statements run, the inference buffer
    (the structure and the heap) is as it was, and after at most
    [samples_to_read + 2] statements the task has left its loop and
    deleted itself.  A task that is inside the forwarding loop, at index
    [i], still forwards its batch to the end: over a usable buffer it
    appends the remaining [samples_to_read - i] samples, then deletes
    itself three statements later and appends nothing more; over a buffer
    that is no longer live its next statement stores through the released
    pointer. *)
Theorem stopped_task_appends_nothing arg c i st k :
  record_status st = false → is_forwarding c = false →
  (Z.to_nat (u32 arg) ≤ length (sampleBuffer st))%nat →
  (i ≤ Z.to_nat (u32 arg))%nat →
  (∃ c' st', capture_steps k arg c st = Ok (c', st') ∧
     inference st' = inference st ∧ heap st' = heap st ∧
     record_status st' = false ∧
     is_forwarding c' = false ∧
     ((Z.to_nat (u32 arg) + 2 ≤ k)%nat → c' = Deleted)) ∧
  (wf st →
   ∃ st',
     append_samples
       (take (Z.to_nat (u32 arg) - i) (drop i (sampleBuffer st))) st
       = Ok st' ∧
     capture_steps (Z.to_nat (u32 arg) - i) arg (Forwarding i) st
       = Ok (Forwarding (Z.to_nat (u32 arg)), st') ∧
     (∀ j, (Z.to_nat (u32 arg) - i + 3 ≤ j)%nat →
        capture_steps j arg (Forwarding i) st = Ok (Deleted, st')) ∧
     buf_count (inference st') =
       (buf_count (inference st) + Z.of_nat (Z.to_nat (u32 arg) - i))
         mod n_samples (inference st) ∧
     record_status st' = false) ∧
  (window st = None → (i < Z.to_nat (u32 arg))%nat →
   capture_step arg (Forwarding i) st = Fault InvalidPointer).
Proof.
  intros Hrs Hc Hlen Hi. split_and!.
  - destruct (capture_steps_stopped k arg c st Hrs Hc Hlen)
      as (c' & st' & Hrun & Hinf & Hh & Hrs' & Hc' & Hm).
    exists c', st'. split_and!; try done.
    intros Hk.
    assert (steps_to_exit (Z.to_nat (u32 arg)) c ≤ Z.to_nat (u32 arg) + 2)%nat
      by (destruct c; cbn; lia).
    destruct c'; cbn in Hm, Hc'; try done; lia.
  - intros Hwf. by apply capture_steps_forwarding_stopped.
  - intros Hw Hlt. unfold capture_step.
    replace (i <? Z.to_nat (u32 arg))%nat
      with true by (symmetry; apply Nat.ltb_lt; lia).
    unfold callback_body.
    destruct (lookup_lt_is_Some_2 (sampleBuffer st) i) as [x Hx]; [lia|].
    rewrite Hx. unfold append_sample, store. unfold window in Hw.
    by rewrite Hw.
Qed.

Lemma stopped_task_appends_nothing_witness :
  (∃ c' st',
     capture_steps (Z.to_nat 2050) sample_buffer_size (Reading 5)
       (set_record_status false session3_forwarding) = Ok (c', st') ∧
     inference st' = inference (set_record_status false session3_forwarding) ∧
     heap st' = heap (set_record_status false session3_forwarding) ∧
     record_status st' = false ∧
     c' = Deleted) ∧
  (∃ st',
     append_samples
       (take (Z.to_nat (u32 sample_buffer_size) - 1)
             (drop 1 (sampleBuffer
                        (set_record_status false session3_forwarding))))
       (set_record_status false session3_forwarding) = Ok st' ∧
     capture_steps (Z.to_nat (u32 sample_buffer_size) - 1) sample_buffer_size
       (Forwarding 1) (set_record_status false session3_forwarding)
       = Ok (Forwarding (Z.to_nat (u32 sample_buffer_size)), st') ∧
     (∀ j, (Z.to_nat (u32 sample_buffer_size) - 1 + 3 ≤ j)%nat →
        capture_steps j sample_buffer_size (Forwarding 1)
          (set_record_status false session3_forwarding) = Ok (Deleted, st')) ∧
     buf_count (inference st') =
       (buf_count (inference (set_record_status false session3_forwarding))
        + Z.of_nat (Z.to_nat (u32 sample_buffer_size) - 1))
         mod n_samples (inference (set_record_status false session3_forwarding)) ∧
     record_status st' = false).
Proof.
  destruct (stopped_task_appends_nothing
              sample_buffer_size (Reading 5) 1
              (set_record_status false session3_forwarding) (Z.to_nat 2050))
    as (HA & HB & _).
  - reflexivity.
  - reflexivity.
  - apply Nat.leb_le. vm_compute. reflexivity.
  - apply Nat.leb_le. vm_compute. reflexivity.
  - split.
    + destruct HA as (c' & st' & H1 & H2 & H3 & H4 & _ & Hexit).
      exists c', st'.
      split; [exact H1|]. split; [exact H2|]. split; [exact H3|].
      split; [exact H4|].
      apply Hexit. apply Nat.leb_le. vm_compute. reflexivity.
    + apply HB. unfold wf, window. cbn. split_and!; try lia.
      exists [7; 0; 0]. split; [reflexivity|cbn; lia].
Defined.

(** C9, as stated, fails: the flag turns false while the task is inside
    the forwarding loop (one sample of its batch forwarded, 1 + 2049 + 1 +
    1 statements from the head of its loop).  The task's next statement
    appends the second sample.  When the whole of
    [microphone_inference_end] has run by then, that statement stores
    through the released pointer. *)
Lemma forwarding_continues_after_stop :
  capture_steps (Z.to_nat 2052) sample_buffer_size LoopHead
    (snd (microphone_inference_start (malloc_at 4096 65536) 3
            (boot (replicate (Z.to_nat 2048) 7))))
    = Ok (Forwarding 1, session3_forwarding) ∧
  window session3_forwarding = Some [7; 0; 0] ∧
  buf_count (inference session3_forwarding) = 1 ∧
  record_status (set_record_status false session3_forwarding) = false ∧
  (∃ s, capture_step sample_buffer_size (Forwarding 1)
          (set_record_status false session3_forwarding)
          = Ok (Forwarding 2, s) ∧
        window s = Some [7; 7; 0] ∧ buf_count (inference s) = 2) ∧
  (∃ s, microphone_inference_end session3_forwarding = Ok s ∧
        record_status s = false ∧
        capture_step sample_buffer_size (Forwarding 1) s
          = Fault InvalidPointer).
Proof.
  split; [vm_compute; reflexivity|].
  split; [reflexivity|].
  split; [reflexivity|].
  split; [reflexivity|].
  split.
  - eexists. split; [vm_compute; reflexivity|]. split; reflexivity.
  - eexists. split; [vm_compute; reflexivity|]. split; reflexivity.
Qed.

(** ** The control loop *)

Lemma read_loop_gpio k :
  ∀ from st st', read_loop k from st = Ok st' → gpio st' = gpio st.
Proof.
  induction k as [|k IH]; intros from st st'; cbn [read_loop].
  - by intros [= <-].
  - unfold read_body, adc1_get_raw.
    destruct (adc st) as [|r rest]; cbn [set_adc sampleBuffer];
      destruct (_ <? _)%nat; cbn [mbind result_bind]; try done;
      intros H; by rewrite (IH _ _ _ H).
Qed.

Lemma callback_loop_gpio k :
  ∀ from st st', callback_loop k from st = Ok st' → gpio st' = gpio st.
Proof.
  induction k as [|k IH]; intros from st st'; cbn [callback_loop].
  - by intros [= <-].
  - unfold callback_body. destruct (sampleBuffer st !! from) as [x|]; [|done].
    destruct (append_sample x st) as [s1|] eqn:Hs; [|done].
    cbn [mbind result_bind]. intros H. rewrite (IH _ _ _ H).
    by destruct (append_sample_frame _ _ _ Hs) as (_ & _ & _ & Hg & _).
Qed.

(** The sampling task does not write the pin. *)
Lemma sampler_yield_gpio s s' : sampler_yield s = Ok s' → gpio s' = gpio s.
Proof.
  unfold sampler_yield, capture_cycle.
  destruct (record_status s); [|by intros [= <-]].
  destruct (read_loop _ _ _) as [s1|] eqn:Hr; [|done].
  cbn [mbind result_bind].
  destruct (record_status s1).
  - unfold audio_inference_callback.
    destruct (callback_loop _ _ _) as [s2|] eqn:Hc; [|done].
    cbn. intros [= <-].
    by rewrite (callback_loop_gpio _ _ _ _ Hc), (read_loop_gpio _ _ _ _ Hr).
  - cbn. intros [= <-]. by rewrite (read_loop_gpio _ _ _ _ Hr).
Qed.

Lemma record_unfold yield fuel st :
  microphone_inference_record yield (S fuel) st =
    if buf_ready (inference st) =? 0
    then st1 ← yield st ; microphone_inference_record yield fuel st1
    else Ok (Some (true, set_inference (set_buf_ready 0 (inference st)) st)).
Proof. reflexivity. Qed.

(** While its task runs, the wait of [microphone_inference_record] ends:
    every pass stores [sample_buffer_size] samples, so the window fills. *)
Lemma record_returns_with_sampler k :
  ∀ st, wf st → record_status st = true →
    length (sampleBuffer st) = Z.to_nat sample_buffer_size →
    n_samples (inference st) - buf_count (inference st)
      ≤ sample_buffer_size * Z.of_nat k →
    ∃ st', microphone_inference_record sampler_yield (S k) st
             = Ok (Some (true, st')).
Proof.
  induction k as [|k IH]; intros st Hwf Hrs Hlen Hleft.
  - destruct Hwf as (_ & Hc & _). lia.
  - destruct (Z.eqb_spec (buf_ready (inference st)) 0) as [Hz|Hnz].
    2:{ eexists. by apply record_when_ready. }
    destruct (capture_cycle_running st Hwf Hrs Hlen)
      as (s1 & s2 & _ & _ & _ & _ & _ & Hcyc & Hwf2 & Hn2 & Hc2 & Hr2 & Hrs2 & Hl2 & _).
    assert (sampler_yield st = Ok s2) as Hy
      by (unfold sampler_yield; by rewrite Hcyc).
    rewrite record_unfold, Hz, Hy. cbn [Z.eqb mbind result_bind].
    destruct (Z.ltb_spec (buf_count (inference st) + sample_buffer_size)
                         (n_samples (inference st))) as [Hlt|Hge].
    + apply IH; try done.
      rewrite Hn2, Hc2.
      rewrite Z.mod_small by (destruct Hwf as (_ & Hc & _); unfold sample_buffer_size in *; lia).
      lia.
    + eexists. apply record_when_ready. rewrite Hr2. lia.
Qed.

Section ControlLoop.

Variable EI_CLASSIFIER_RAW_SAMPLE_COUNT : Z.
Variable EI_CLASSIFIER_HAS_ANOMALY : Z.
Variable int16_to_float : Z → float.
Variable run_classifier : signal_t → bool → result (Z * ei_impulse_result_t).
Variable yield : state → result state.

(** The only value [microphone_inference_record] returns is [true]. *)
Lemma record_returns_true fuel :
  ∀ st r st',
    microphone_inference_record yield fuel st = Ok (Some (r, st')) →
    r = true.
Proof.
  induction fuel as [|fuel IH]; intros st r st'; cbn; [done|].
  destruct (_ =? _).
  - destruct (yield st) as [s1|]; [|done]. cbn. apply IH.
  - by intros [= <- _].
Qed.

Lemma record_gpio fuel :
  (∀ s s', yield s = Ok s' → gpio s' = gpio s) →
  ∀ st r st',
    microphone_inference_record yield fuel st = Ok (Some (r, st')) →
    gpio st' = gpio st.
Proof.
  intros Hy. induction fuel as [|fuel IH]; intros st r st'; cbn; [done|].
  destruct (_ =? _).
  - destruct (yield st) as [s1|] eqn:Hs; [|done]. cbn.
    intros H. rewrite (IH _ _ _ H). by apply Hy.
  - by intros [= _ <-].
Qed.

(** C10. [microphone_inference_record] never returns [false], so [loop]
    never leaves through the branch that reports a failed recording; and
    it does return: at its first test when the flag is set, and after
    enough sleeps whenever its sampling task is running on a usable
    buffer. *)
Theorem record_never_reports_failure fuel st :
  (∀ r st', microphone_inference_record yield fuel st = Ok (Some (r, st')) →
            r = true) ∧
  (∀ e st',
     loop EI_CLASSIFIER_RAW_SAMPLE_COUNT EI_CLASSIFIER_HAS_ANOMALY
          int16_to_float run_classifier yield fuel st = Ok (Some (e, st')) →
     e ≠ RecordFailed) ∧
  (buf_ready (inference st) ≠ 0 →
   ∃ st', microphone_inference_record yield (S fuel) st
            = Ok (Some (true, st'))) ∧
  (wf st → record_status st = true →
   length (sampleBuffer st) = Z.to_nat sample_buffer_size →
   ∃ fuel' st', microphone_inference_record sampler_yield fuel' st
                  = Ok (Some (true, st'))).
Proof.
  split_and!.
  - apply record_returns_true.
  - intros e st'. unfold loop.
    destruct (microphone_inference_record yield fuel st)
      as [[[m s1]|]|] eqn:Hrec; cbn [mbind result_bind]; try done.
    rewrite (record_returns_true _ _ _ _ Hrec). cbn [negb].
    destruct (run_classifier _ _) as [[r res]|]; cbn [mbind result_bind];
      [|done].
    destruct (negb (r =? EI_IMPULSE_OK)); [by intros [= <- _]|].
    destruct (classification res !! 0%nat); [|done].
    destruct (yield _); cbn; [|done]. by intros [= <- _].
  - intros Hr. eexists. by apply record_when_ready.
  - intros Hwf Hrs Hlen.
    exists (S (Z.to_nat (n_samples (inference st)))).
    apply record_returns_with_sampler; try done.
    destruct Hwf as (Hn & Hc & _). unfold sample_buffer_size. lia.
Qed.

(** C8. A pass of [loop] that reaches its end writes pin 33 low first
    and then high exactly when the confidence of label 0 is strictly
    above the threshold; a confidence equal to the threshold leaves the
    pin low. *)
Theorem actuator_follows_threshold fuel st st' :
  (∀ s s', yield s = Ok s' → gpio s' = gpio s) →
  loop EI_CLASSIFIER_RAW_SAMPLE_COUNT EI_CLASSIFIER_HAS_ANOMALY
       int16_to_float run_classifier yield fuel st
    = Ok (Some (Completed, st')) →
  ∃ s1 res c0,
    microphone_inference_record yield fuel st = Ok (Some (true, s1)) ∧
    run_classifier
      (mk_signal EI_CLASSIFIER_RAW_SAMPLE_COUNT
                 (microphone_audio_signal_get_data int16_to_float s1))
      debug_nn = Ok (EI_IMPULSE_OK, res) ∧
    classification res !! 0%nat = Some c0 ∧
    gpio st' =
      gpio st ++ (33, LOW)
        :: (if PrimFloat.ltb threshold (value c0) then [(33, HIGH)] else []) ∧
    (value c0 = threshold → gpio st' = gpio st ++ [(33, LOW)]).
Proof.
  intros Hy. unfold loop.
  destruct (microphone_inference_record yield fuel st)
    as [[[m s1]|]|] eqn:Hrec; cbn [mbind result_bind]; try done.
  pose proof (record_returns_true _ _ _ _ Hrec) as ->.
  pose proof (record_gpio _ Hy _ _ _ Hrec) as Hg1. cbn [negb].
  destruct (run_classifier _ _) as [[r res]|] eqn:Hcl;
    cbn [mbind result_bind]; [|done].
  destruct (Z.eqb_spec r EI_IMPULSE_OK) as [->|]; cbn [negb]; [|done].
  destruct (classification res !! 0%nat) as [c0|] eqn:Hc0; [|done].
  destruct (yield _) as [s5|] eqn:Hy5; cbn; [|done].
  intros [= <-]. exists s1, res, c0.
  assert (gpio s5 =
            gpio st ++ (33, LOW)
              :: (if PrimFloat.ltb threshold (value c0)
                  then [(33, HIGH)] else [])) as Hgpio.
  { rewrite (Hy _ _ Hy5).
    destruct (PrimFloat.ltb threshold (value c0)),
             (EI_CLASSIFIER_HAS_ANOMALY =? 1); cbn; rewrite Hg1;
      by rewrite <- ?app_assoc. }
  split_and!; try done.
  intros Heq. rewrite Hgpio, Heq. reflexivity.
Qed.

End ControlLoop.

Lemma actuator_follows_threshold_witness :
  ∃ s1 res c0,
    microphone_inference_record sampler_yield 1 session3_ready
      = Ok (Some (true, s1)) ∧
    classifier_of 0.5%float
      (mk_signal 3 (microphone_audio_signal_get_data int16_to_float_scaled s1))
      debug_nn = Ok (EI_IMPULSE_OK, res) ∧
    classification res !! 0%nat = Some c0 ∧
    gpio session3_looped =
      gpio session3_ready ++ (33, LOW)
        :: (if PrimFloat.ltb threshold (value c0) then [(33, HIGH)] else []) ∧
    (value c0 = threshold →
     gpio session3_looped = gpio session3_ready ++ [(33, LOW)]).
Proof.
  apply (actuator_follows_threshold
           3 0 int16_to_float_scaled (classifier_of 0.5%float) sampler_yield
           1 session3_ready session3_looped).
  - exact sampler_yield_gpio.
  - vm_compute. reflexivity.
Defined.

(** The boundary of the comparison of line 144: the threshold itself is
    not above the threshold, 0.40001 is; and so is the [float] nearest to
    4/10, which lies above the [double] nearest to 4/10. *)
Example threshold_boundary :
  PrimFloat.ltb threshold threshold = false ∧
  PrimFloat.ltb threshold 0x1.999c38b04ab6p-2%float = true ∧
  PrimFloat.ltb threshold 0x1.99999ap-2%float = true.
Proof. split_and!; reflexivity. Qed.

(** With a window of 3 samples ready: a confidence of 0.5 for label 0
    drives the pin low, then high; a confidence of 0.1 only low. *)
Example loop_drives_pin :
  gpio (after_loop session3_ready
          (loop 3 0 int16_to_float_scaled (classifier_of 0.5%float)
                sampler_yield 1 session3_ready)) = [(33, LOW); (33, HIGH)] ∧
  gpio (after_loop session3_ready
          (loop 3 0 int16_to_float_scaled
                (classifier_of 0x1.999999999999ap-4%float) sampler_yield
                1 session3_ready)) = [(33, LOW)].
Proof. split; vm_compute; reflexivity. Qed.

(** The task as it is started, on a window of 3 samples: one pass stores
    its 2048 readings (here 0, 1, ..., 2047) over and over the 3 cells, so
    the window the control loop then claims is [2046; 2047; 2045]. *)
Example sampler_overruns_small_window :
  window (from_result session3
            (sampler_yield
               (snd (microphone_inference_start (malloc_at 4096 65536) 3
                       (boot (map Z.of_nat (seq 0 (Z.to_nat 2048))))))))
  = Some [2046; 2047; 2045].
Proof. vm_compute. reflexivity. Qed.

(** A fresh session of window size 3: the first test finds the flag
    clear, one pass of the task fills the window during the sleep, and
    the second test ends the wait with [true]. *)
Example record_returns_after_one_pass :
  microphone_inference_record sampler_yield 1 session3 = Ok None ∧
  ∃ st', microphone_inference_record sampler_yield 2 session3
           = Ok (Some (true, st')).
Proof.
  split; [vm_compute; reflexivity|]. eexists. vm_compute. reflexivity.
Qed.

(** * Further properties *)

(** ** The inference buffer as a ring *)

Lemma run_events_count evs :
  ∀ st, wf st →
    ∃ st', run_events evs st = Ok st' ∧ wf st' ∧
      n_samples (inference st') = n_samples (inference st) ∧
      buf_count (inference st') =
        (buf_count (inference st) + Z.of_nat (count_appends evs))
          mod n_samples (inference st).
Proof.
  induction evs as [|e evs IH]; intros st Hwf.
  - exists st. pose proof Hwf as (Hn & Hc & _). cbn.
    rewrite Z.add_0_r, Z.mod_small by lia. split_and!; done.
  - cbn [run_events]. destruct e as [x|]; cbn [step_event count_appends].
    + destruct (append_sample_step st x Hwf)
        as (s1 & Hrun & Hwf1 & Hn1 & _ & Hc1 & _).
      rewrite Hrun. cbn [mbind result_bind].
      destruct (IH s1 Hwf1) as (s2 & Hrun2 & Hwf2 & Hn2 & Hc2).
      exists s2. pose proof Hwf as (Hn & _).
      split_and!; try done; try congruence.
      rewrite Hc2, Hc1, Hn1, Z.add_mod_idemp_l by lia. f_equal. lia.
    + cbn [mbind result_bind].
      destruct (IH _ (consumer_claim_wf st Hwf)) as (s2 & Hrun2 & Hwf2 & Hn2 & Hc2).
      destruct (consumer_claim_fields st) as (Hn1 & Hc1 & _).
      exists s2. split_and!; try done; congruence.
Qed.

(** X1. Claims do not disturb the fill count: from the start of a window
    of size [N], after any schedule of appends and claims [buf_count] is
    the number of appends modulo [N]. *)
Theorem fill_count_counts_appends N st evs :
  aligned N st →
  ∃ st', run_events evs st = Ok st' ∧
    buf_count (inference st') = Z.of_nat (count_appends evs) mod N.
Proof.
  intros Hal.
  destruct (run_events_count evs st (aligned_wf N st Hal))
    as (st' & Hrun & _ & _ & Hc).
  destruct Hal as (Hn & _ & Hc0 & _).
  exists st'. split; [done|]. by rewrite Hc, Hc0, Hn.
Qed.

Lemma fill_count_counts_appends_witness :
  ∃ st', run_events [Append 1; Claim; Append 2; Append 3; Claim; Append 4]
           session3 = Ok st' ∧
    buf_count (inference st') =
      Z.of_nat (count_appends
                  [Append 1; Claim; Append 2; Append 3; Claim; Append 4])
        mod 3.
Proof.
  apply (fill_count_counts_appends 3 session3).
  exact session3_aligned.
Defined.

(** X2. A window that is not claimed in time is overwritten from its
    start: after a whole window [ws] and [r < N] further samples [xs],
    the buffer holds [xs] followed by the samples of [ws] from position
    [r] on, the flag is still set and the count is [r]. *)
Theorem overrun_overwrites_oldest N st ws xs :
  aligned N st → Z.of_nat (length ws) = N →
  (length xs < length ws)%nat →
  ∃ st', append_samples (ws ++ xs) st = Ok st' ∧
    window st' = Some (xs ++ drop (length xs) ws) ∧
    buf_ready (inference st') = 1 ∧
    buf_count (inference st') = Z.of_nat (length xs).
Proof.
  intros Hal Hws Hxs.
  destruct (append_samples_window N ws st Hal Hws)
    as (s1 & Hrun & Hc1 & Hr1 & Hn1 & Hw1).
  destruct Hal as (_ & HN & _).
  destruct (append_samples_within xs s1 ws 0)
    as (s2 & Hrun2 & Hc2 & Hr2 & _ & Hw2); try done; try lia.
  exists s2. rewrite append_samples_app, Hrun. cbn [mbind result_bind].
  rewrite take_0 in Hw2. cbn in Hw2, Hc2.
  split_and!; try done. congruence.
Qed.

Lemma overrun_overwrites_oldest_witness :
  ∃ st', append_samples ([1; 2; 3] ++ [4; 5]) session3 = Ok st' ∧
    window st' = Some ([4; 5] ++ drop (length [4; 5]) [1; 2; 3]) ∧
    buf_ready (inference st') = 1 ∧
    buf_count (inference st') = Z.of_nat (length [4; 5]).
Proof.
  apply (overrun_overwrites_oldest 3 session3 [1; 2; 3] [4; 5]).
  - exact session3_aligned.
  - reflexivity.
  - cbn. lia.
Defined.

(** ** The sampling task over many passes *)

Lemma append_samples_frame xs :
  ∀ st st', append_samples xs st = Ok st' →
    sampleBuffer st' = sampleBuffer st ∧ record_status st' = record_status st ∧
    adc st' = adc st.
Proof.
  induction xs as [|x xs IH]; intros st st'; cbn [append_samples].
  - by intros [= <-].
  - destruct (append_sample x st) as [s1|] eqn:Hs; [|done].
    cbn [mbind result_bind]. intros H.
    destruct (IH _ _ H) as (H1 & H2 & H3).
    destruct (append_sample_frame _ _ _ Hs) as (F1 & F2 & _ & _ & _ & F6).
    split_and!; congruence.
Qed.

(** A pass of a running task leaves it running on a usable buffer. *)
Lemma capture_samples_running fuel :
  ∀ st, wf st → record_status st = true →
    length (sampleBuffer st) = Z.to_nat sample_buffer_size →
    capture_samples fuel sample_buffer_size st = Ok None.
Proof.
  induction fuel as [|fuel IH]; intros st Hwf Hrs Hlen; [done|].
  destruct (capture_cycle_running st Hwf Hrs Hlen)
    as (s1 & s2 & _ & _ & _ & _ & _ & Hcyc & Hwf2 & _ & _ & _ & Hrs2 & Hl2 & _).
  cbn [capture_samples]. rewrite Hcyc. cbn [mbind result_bind].
  by apply IH.
Qed.

(** X3. While recording stays on, the task as it is started never leaves
    its loop and never accesses memory out of bounds: any number [k] of
    passes over a usable buffer succeed, take [k * sample_buffer_size]
    readings, move the count on by as much modulo the window size, and
    leave the buffer usable and the task running. *)
Theorem task_runs_on_while_recording k :
  ∀ st, wf st → record_status st = true →
    length (sampleBuffer st) = Z.to_nat sample_buffer_size →
    capture_samples k sample_buffer_size st = Ok None ∧
    ∃ s', passes k st = Ok s' ∧ wf s' ∧ record_status s' = true ∧
      n_samples (inference s') = n_samples (inference st) ∧
      buf_count (inference s') =
        (buf_count (inference st) + Z.of_nat k * sample_buffer_size)
          mod n_samples (inference st) ∧
      adc s' = drop (k * Z.to_nat sample_buffer_size) (adc st).
Proof.
  induction k as [|k IH]; intros st Hwf Hrs Hlen.
  - split; [done|]. exists st. pose proof Hwf as (_ & Hc & _).
    cbn [passes]. rewrite Z.mul_0_l, Z.add_0_r, Z.mod_small by lia.
    split_and!; done.
  - split; [by apply capture_samples_running|].
    destruct (capture_cycle_running st Hwf Hrs Hlen)
      as (s1 & s2 & _ & Ha1 & _ & _ & Happ & Hcyc & Hwf2 & Hn2 & Hc2 & _
          & Hrs2 & Hl2 & _).
    destruct (append_samples_frame _ _ _ Happ) as (_ & _ & Ha2).
    destruct (IH s2 Hwf2 Hrs2 Hl2) as (_ & s' & Hrun & Hwf' & Hrs' & Hn' & Hc' & Ha').
    exists s'. cbn [passes]. unfold sampler_yield at 1. rewrite Hcyc.
    cbn [mbind result_bind]. pose proof Hwf as (Hn & _).
    split_and!; try done; try congruence.
    + rewrite Hc', Hn2, Hc2, Z.add_mod_idemp_l by lia. f_equal; lia.
    + rewrite Ha', Ha2, Ha1, drop_drop. f_equal; lia.
Qed.

Lemma task_runs_on_while_recording_witness :
  capture_samples 5 sample_buffer_size session3 = Ok None ∧
  ∃ s', passes 5 session3 = Ok s' ∧ wf s' ∧ record_status s' = true ∧
    n_samples (inference s') = n_samples (inference session3) ∧
    buf_count (inference s') =
      (buf_count (inference session3) + Z.of_nat 5 * sample_buffer_size)
        mod n_samples (inference session3) ∧
    adc s' = drop (5 * Z.to_nat sample_buffer_size) (adc session3).
Proof.
  apply (task_runs_on_while_recording 5 session3).
  - exact (aligned_wf 3 session3 session3_aligned).
  - reflexivity.
  - reflexivity.
Defined.

Lemma read_loop_overflow k :
  ∀ from st,
    (from ≤ length (sampleBuffer st))%nat →
    (length (sampleBuffer st) < from + k)%nat →
    read_loop k from st = Fault OutOfBounds.
Proof.
  induction k as [|k IH]; intros from st Hle Hlt; [lia|].
  cbn [read_loop].
  destruct (Nat.eq_dec from (length (sampleBuffer st))) as [->|Hne].
  - unfold read_body, adc1_get_raw.
    destruct (adc st); cbn [set_adc sampleBuffer];
      by rewrite Nat.ltb_irrefl.
  - destruct (read_body_frame from st) as (s1 & Hrun & _ & _ & _ & Hl1 & _);
      [lia|].
    rewrite Hrun. cbn [mbind result_bind]. apply IH; lia.
Qed.

(** X4. [sampleBuffer] bounds the batch: a task whose argument exceeds
    the length of [sampleBuffer] writes past its end in its first pass
    (as a task bound to a window of 16000 samples would). *)
Theorem oversized_batch_overflows_sampleBuffer arg st :
  record_status st = true →
  (length (sampleBuffer st) < Z.to_nat (u32 arg))%nat →
  capture_cycle arg st = Fault OutOfBounds.
Proof.
  intros Hrs Hlt. unfold capture_cycle. rewrite Hrs.
  rewrite read_loop_overflow; [done|lia|lia].
Qed.

Lemma oversized_batch_overflows_sampleBuffer_witness :
  capture_cycle 16000 session3 = Fault OutOfBounds.
Proof.
  apply (oversized_batch_overflows_sampleBuffer 16000 session3).
  - reflexivity.
  - apply Nat.ltb_lt. vm_compute. reflexivity.
Defined.

(** Samples that complete the window from the fill count on: the count
    wraps to 0 and the flag is set. *)
Lemma append_samples_completing xs st cells (c : nat) :
  window st = Some cells →
  buf_count (inference st) = Z.of_nat c →
  n_samples (inference st) = Z.of_nat (length cells) →
  n_samples (inference st) < 2 ^ 32 →
  (0 < length xs)%nat → (c + length xs = length cells)%nat →
  ∃ st', append_samples xs st = Ok st' ∧
    buf_count (inference st') = 0 ∧ buf_ready (inference st') = 1 ∧
    n_samples (inference st') = n_samples (inference st) ∧
    window st' = Some (take c cells ++ xs).
Proof.
  intros Hw Hc Hn H32 Hpos Hlen.
  destruct xs as [|x pre _] using rev_ind; [cbn in Hpos; lia|].
  rewrite length_app in Hlen. cbn in Hlen.
  destruct (append_samples_within pre st cells c)
    as (s1 & Hrun & Hc1 & Hr1 & Hn1 & Hw1); try done; try lia.
  rewrite append_samples_app, Hrun. cbn [mbind result_bind append_samples].
  assert (length (take c cells ++ pre) = (c + length pre)%nat) as Hpl
    by (rewrite length_app, length_take; lia).
  rewrite (append_sample_wf s1 x _ Hw1); rewrite ?Hc1, ?Hn1, ?Hn;
    rewrite ?length_app, ?length_take, ?length_drop; try lia.
  replace (Z.of_nat (c + length pre) + 1 <? Z.of_nat (length cells))
    with false by (symmetry; apply Z.ltb_ge; lia).
  eexists. split; [done|]. unfold window. cbn.
  split_and!; try done; try congruence.
  rewrite lookup_insert_eq. f_equal. rewrite Nat2Z.id.
  rewrite (app_assoc (take c cells) pre).
  replace (c + length pre)%nat with (length (take c cells ++ pre) + 0)%nat
    by lia.
  rewrite insert_app_r.
  assert (length (drop (c + length pre) cells) = 1%nat) as Hd
    by (rewrite length_drop; lia).
  rewrite Hpl, Nat.add_0_r.
  destruct (drop (c + length pre) cells) as [|y [|? ?]]; cbn in Hd; try lia.
  cbn. by rewrite <- app_assoc.
Qed.

Lemma samples_of_length m tape : length (samples_of m tape) = m.
Proof.
  unfold samples_of.
  rewrite length_map, length_take, length_app, length_replicate. lia.
Qed.

(** The samples of [m + k] readings are those of the first [m] followed
    by those of the next [k]. *)
Lemma samples_of_add m k tape :
  samples_of (m + k) tape = samples_of m tape ++ samples_of k (drop m tape).
Proof.
  unfold samples_of. rewrite <- map_app. f_equal.
  rewrite !take_pad by lia. rewrite length_drop.
  destruct (Nat.le_gt_cases m (length tape)) as [Hle|Hgt].
  - replace (m - length tape)%nat with O by lia. cbn [replicate].
    rewrite app_nil_r, <- take_take_drop, <- app_assoc. do 3 f_equal. lia.
  - rewrite (take_ge tape m), (take_ge tape (m + k)) by lia.
    rewrite (drop_ge tape m) by lia. rewrite take_nil. cbn [app].
    rewrite <- app_assoc, <- replicate_add. do 2 f_equal. lia.
Qed.

(** One pass of the task over a block with room for the whole batch. *)
Lemma sampler_pass st cells (c : nat) :
  window st = Some cells →
  buf_count (inference st) = Z.of_nat c →
  n_samples (inference st) = Z.of_nat (length cells) →
  n_samples (inference st) < 2 ^ 32 →
  record_status st = true →
  length (sampleBuffer st) = Z.to_nat sample_buffer_size →
  (c + Z.to_nat sample_buffer_size ≤ length cells)%nat →
  ∃ s2, sampler_yield st = Ok s2 ∧
    adc s2 = drop (Z.to_nat sample_buffer_size) (adc st) ∧
    record_status s2 = true ∧
    length (sampleBuffer s2) = Z.to_nat sample_buffer_size ∧
    n_samples (inference s2) = n_samples (inference st) ∧
    window s2 =
      Some (take c cells
              ++ samples_of (Z.to_nat sample_buffer_size) (adc st)
              ++ drop (c + Z.to_nat sample_buffer_size) cells) ∧
    ((c + Z.to_nat sample_buffer_size < length cells)%nat →
     buf_count (inference s2)
       = Z.of_nat (c + Z.to_nat sample_buffer_size) ∧
     buf_ready (inference s2) = buf_ready (inference st)) ∧
    ((c + Z.to_nat sample_buffer_size = length cells)%nat →
     buf_count (inference s2) = 0 ∧ buf_ready (inference s2) = 1).
Proof.
  intros Hw Hc Hn H32 Hrs Hlen Hroom.
  remember (Z.to_nat sample_buffer_size) as B eqn:HB.
  assert (0 < B)%nat as HBpos by (subst B; vm_compute; lia).
  destruct (read_loop_spec B 0 st)
    as (s1 & Hread & Hadc & Hsb & Hinf & Hheap & Hrs1 & _); [lia|].
  rewrite take_0, drop_ge in Hsb by (cbn; lia).
  cbn [app] in Hsb. rewrite app_nil_r in Hsb.
  fold (samples_of B (adc st)) in Hsb.
  assert (length (sampleBuffer s1) = B) as Hlen1
    by (rewrite Hsb; apply samples_of_length).
  assert (window s1 = Some cells) as Hw1
    by (unfold window in *; by rewrite Hinf, Hheap).
  assert (sampler_yield st =
            (s2 ← append_samples (sampleBuffer s1) s1 ; Ok s2)) as Hy.
  { unfold sampler_yield, capture_cycle.
    rewrite Hrs, u32_sample_buffer_size, <- HB, Hread.
    cbn [mbind result_bind]. rewrite Hrs1, Hrs.
    unfold audio_inference_callback. rewrite <- HB.
    rewrite callback_loop_appends by lia.
    rewrite drop_0, <- Hlen1, firstn_all.
    by destruct (append_samples _ _). }
  rewrite Hy.
  destruct (Nat.eq_dec (c + B)%nat (length cells)) as [Heq|Hne].
  - destruct (append_samples_completing (sampleBuffer s1) s1 cells c)
      as (s2 & Hrun & Hc2 & Hr2 & Hn2 & Hw2); try done; try congruence; try lia.
    rewrite Hrun. cbn [mbind result_bind]. exists s2.
    destruct (append_samples_frame _ _ _ Hrun) as (F1 & F2 & F3).
    rewrite (drop_ge cells), app_nil_r by lia.
    split_and!; try done; try congruence; try lia.
  - destruct (append_samples_within (sampleBuffer s1) s1 cells c)
      as (s2 & Hrun & Hc2 & Hr2 & Hn2 & Hw2); try done; try congruence; try lia.
    rewrite Hrun. cbn [mbind result_bind]. exists s2.
    destruct (append_samples_frame _ _ _ Hrun) as (F1 & F2 & F3).
    rewrite Hlen1 in *.
    split_and!; try done; try congruence; try lia.
    intros _. split; congruence.
Qed.

Lemma passes_snoc k :
  ∀ st, passes (S k) st = (s ← passes k st ; sampler_yield s).
Proof.
  induction k as [|k IH]; intros st.
  - cbn [passes mbind result_bind]. by destruct (sampler_yield st).
  - change (passes (S (S k)) st)
      with (s1 ← sampler_yield st ; passes (S k) s1).
    change (passes (S k) st) with (s1 ← sampler_yield st ; passes k s1).
    destruct (sampler_yield st) as [s1|]; cbn [mbind result_bind]; [|done].
    apply IH.
Qed.

(** Passes that do not complete the window lay the readings down one
    batch after the other. *)
Lemma passes_within k st cells :
  window st = Some cells →
  buf_count (inference st) = 0 →
  n_samples (inference st) = Z.of_nat (length cells) →
  n_samples (inference st) < 2 ^ 32 →
  record_status st = true →
  length (sampleBuffer st) = Z.to_nat sample_buffer_size →
  (k * Z.to_nat sample_buffer_size < length cells)%nat →
  ∃ s', passes k st = Ok s' ∧
    window s' =
      Some (samples_of (k * Z.to_nat sample_buffer_size) (adc st)
              ++ drop (k * Z.to_nat sample_buffer_size) cells) ∧
    buf_count (inference s')
      = Z.of_nat (k * Z.to_nat sample_buffer_size) ∧
    buf_ready (inference s') = buf_ready (inference st) ∧
    adc s' = drop (k * Z.to_nat sample_buffer_size) (adc st) ∧
    record_status s' = true ∧
    length (sampleBuffer s') = Z.to_nat sample_buffer_size ∧
    n_samples (inference s') = n_samples (inference st).
Proof.
  intros Hw Hc Hn H32 Hrs Hlen.
  remember (Z.to_nat sample_buffer_size) as B eqn:HB.
  induction k as [|k IH]; intros Hk.
  - exists st. cbn [passes Nat.mul]. unfold samples_of.
    rewrite take_0, drop_0. cbn. split_and!; done.
  - destruct IH as (sk & Hrun & Hwk & Hck & Hrk & Hak & Hrsk & Hlk & Hnk);
      [lia|].
    assert (length (samples_of (k * B) (adc st)) = (k * B)%nat) as Hsl
      by apply samples_of_length.
    destruct (sampler_pass sk _ (k * B) Hwk)
      as (s2 & Hy & Ha2 & Hrs2 & Hl2 & Hn2 & Hw2 & Hin & _);
      try done; try congruence; rewrite <- ?HB;
      rewrite ?length_app, ?length_drop, ?Hsl; try lia.
    exists s2. rewrite passes_snoc, Hrun. cbn [mbind result_bind].
    rewrite <- HB in *.
    destruct Hin as (Hc2 & Hr2);
      [rewrite length_app, length_drop, Hsl; lia|].
    split_and!; try done; try congruence.
    + rewrite Hw2. f_equal.
      rewrite take_app_length' by done.
      rewrite drop_app_ge by lia. rewrite Hsl, drop_drop, Hak.
      replace (S k * B)%nat with (k * B + B)%nat by lia.
      rewrite samples_of_add, <- app_assoc. do 3 f_equal. lia.
    + rewrite Hc2. f_equal. lia.
    + rewrite Ha2, Hak, drop_drop. f_equal. lia.
Qed.

(** X5. When the window size is a multiple of [sample_buffer_size], the
    hand-off is exact: after that many passes of the task from the start
    of a window, the count is back at 0, the flag is set, and the window
    holds the readings of those passes, in order, each narrowed to 16
    bits.  Once claimed, the buffer is at the start of a window again. *)
Theorem whole_batches_fill_window_exactly k N st :
  aligned N st →
  N = Z.of_nat (S k) * sample_buffer_size →
  record_status st = true →
  length (sampleBuffer st) = Z.to_nat sample_buffer_size →
  ∃ s', passes (S k) st = Ok s' ∧
    buf_count (inference s') = 0 ∧ buf_ready (inference s') = 1 ∧
    window s' = Some (samples_of (Z.to_nat N) (adc st)) ∧
    adc s' = drop (Z.to_nat N) (adc st) ∧
    aligned N (consumer_claim s').
Proof.
  intros (Hn & HN & Hc & Hr & cells & Hw & Hcl) HNk Hrs Hlen.
  remember (Z.to_nat sample_buffer_size) as B eqn:HB.
  assert (Z.of_nat B = sample_buffer_size) as HBz by (subst B; reflexivity).
  assert (length cells = (S k * B)%nat) as Hcells by lia.
  destruct (passes_within k st cells)
    as (sk & Hrun & Hwk & Hck & Hrk & Hak & Hrsk & Hlk & Hnk);
    try done; rewrite <- ?HB; try lia.
  rewrite <- HB in *.
  assert (length (samples_of (k * B) (adc st)) = (k * B)%nat) as Hsl
    by apply samples_of_length.
  destruct (sampler_pass sk _ (k * B) Hwk)
    as (s2 & Hy & Ha2 & Hrs2 & Hl2 & Hn2 & Hw2 & _ & Hfin);
    try done; try congruence; rewrite <- ?HB;
    rewrite ?length_app, ?length_drop, ?Hsl; try lia.
  rewrite <- HB in *.
  destruct Hfin as (Hc2 & Hr2);
    [rewrite length_app, length_drop, Hsl; lia|].
  exists s2. rewrite passes_snoc, Hrun. cbn [mbind result_bind].
  assert (window s2 = Some (samples_of (k * B + B) (adc st))) as Hw2'.
  { rewrite Hw2. f_equal.
    rewrite take_app_length' by done.
    rewrite (drop_ge (_ ++ _)), app_nil_r
      by (rewrite length_app, length_drop, Hsl; lia).
    by rewrite samples_of_add, Hak. }
  replace (Z.to_nat N) with (k * B + B)%nat by lia.
  split_and!; try done.
  - rewrite Ha2, Hak, drop_drop. done.
  - rewrite consumer_claim_spec, Hr2. unfold aligned, window in *. cbn.
    split_and!; try done; try congruence; try lia.
    eexists. split; [exact Hw2'|]. rewrite samples_of_length. lia.
Qed.

Lemma session4096_aligned : aligned 4096 session4096.
Proof.
  unfold aligned, window. split_and!; try reflexivity.
  exists (replicate (Z.to_nat 4096) 0). split; vm_compute; reflexivity.
Defined.

Lemma whole_batches_fill_window_exactly_witness :
  ∃ s', passes 2 session4096 = Ok s' ∧
    buf_count (inference s') = 0 ∧ buf_ready (inference s') = 1 ∧
    window s' = Some (samples_of (Z.to_nat 4096) (adc session4096)) ∧
    adc s' = drop (Z.to_nat 4096) (adc session4096) ∧
    aligned 4096 (consumer_claim s').
Proof.
  apply (whole_batches_fill_window_exactly 1 4096 session4096).
  - exact session4096_aligned.
  - reflexivity.
  - reflexivity.
  - reflexivity.
Defined.

(** ** Reading the window *)

Section Reading.

Variable int16_to_float : Z → float.

(** X6. The classifier may read the window in pieces: over a live block,
    [microphone_audio_signal_get_data] on two adjacent ranges inside it
    succeeds with status 0 and yields, put together, what one call on the
    joined range yields. *)
Theorem get_data_adjacent_ranges st cells offset a b :
  window st = Some cells →
  (offset + a + b ≤ length cells)%nat →
  ∃ l1 l2,
    microphone_audio_signal_get_data int16_to_float st offset a
      = Ok (0, l1) ∧
    microphone_audio_signal_get_data int16_to_float st (offset + a) b
      = Ok (0, l2) ∧
    microphone_audio_signal_get_data int16_to_float st offset (a + b)
      = Ok (0, l1 ++ l2) ∧
    length l1 = a ∧ length l2 = b.
Proof.
  intros Hw Hlen. unfold microphone_audio_signal_get_data.
  unfold window in Hw.
  rewrite !(load_range_in_bounds _ _ _ _ cells) by (done || lia).
  cbn [mbind result_bind].
  eexists _, _. split_and!; try done.
  - rewrite <- map_app, <- take_take_drop, drop_drop. done.
  - rewrite length_map, length_take, length_drop. lia.
  - rewrite length_map, length_take, length_drop. lia.
Qed.

(** Nothing guards the range: a call whose range ends past the block
    reads out of bounds, and one through a pointer that is not live reads
    released memory. *)
Lemma get_data_out_of_range st offset len :
  (0 < len)%nat →
  match window st with
  | Some cells =>
      (length cells < offset + len)%nat →
      microphone_audio_signal_get_data int16_to_float st offset len
        = Fault OutOfBounds
  | None =>
      microphone_audio_signal_get_data int16_to_float st offset len
        = Fault InvalidPointer
  end.
Proof.
  intros Hpos. unfold microphone_audio_signal_get_data, load_range, window.
  destruct (Nat.eqb_spec len 0) as [->|_]; [lia|].
  destruct (heap st !! buffer (inference st)) as [cells|]; [|done].
  intros Hlt.
  by replace (offset + len <=? length cells)%nat
    with false by (symmetry; apply Nat.leb_gt; lia).
Qed.

End Reading.

Lemma get_data_adjacent_ranges_witness :
  ∃ l1 l2,
    microphone_audio_signal_get_data int16_to_float_scaled session3_ready 0 1
      = Ok (0, l1) ∧
    microphone_audio_signal_get_data int16_to_float_scaled session3_ready
      (0 + 1) 2 = Ok (0, l2) ∧
    microphone_audio_signal_get_data int16_to_float_scaled session3_ready
      0 (1 + 2) = Ok (0, l1 ++ l2) ∧
    length l1 = 1%nat ∧ length l2 = 2%nat.
Proof.
  apply (get_data_adjacent_ranges int16_to_float_scaled session3_ready
           [1; 2; 3] 0 1 2).
  - reflexivity.
  - cbn. lia.
Defined.


(** ** Stop, and start again *)

(** X7. [microphone_inference_end] on an allocated buffer, when it
    returns, has set [record_status] false and released that block, which
    was live, and no other; the structure [inference] is as it was, so
    [inference.buffer] still holds the address of the released block.
    From then on every append and every read of the window goes through
    a released pointer, while a task that is at the head of its loop
    returns at once. *)
Theorem stop_releases_buffer st st' :
  buffer (inference st) ≠ 0 →
  microphone_inference_end st = Ok st' →
  record_status st' = false ∧
  inference st' = inference st ∧
  buffer (inference st') = buffer (inference st) ∧
  is_Some (heap st !! buffer (inference st)) ∧
  heap st' = delete (buffer (inference st)) (heap st) ∧
  heap st' !! buffer (inference st) = None ∧
  (∀ q, q ≠ buffer (inference st) → heap st' !! q = heap st !! q) ∧
  window st' = None ∧
  (∀ x, append_sample x st' = Fault InvalidPointer) ∧
  (∀ conv offset len, (0 < len)%nat →
     microphone_audio_signal_get_data conv st' offset len
       = Fault InvalidPointer) ∧
  (∀ fuel arg, capture_samples (S fuel) arg st' = Ok (Some st')).
Proof.
  intros Hp. unfold microphone_inference_end, ei_free. cbn.
  destruct (Z.eqb_spec (buffer (inference st)) 0); [done|].
  destruct (heap st !! buffer (inference st)) eqn:Hl; [|done].
  intros [= <-].
  set (s' := set_heap (delete (buffer (inference st)) (heap st))
                      (set_record_status false st)).
  assert (window s' = None) as Hw
    by (unfold window; cbn; apply lookup_delete_eq).
  assert (heap s' !! buffer (inference st) = None) as Hgone
    by (cbn; apply lookup_delete_eq).
  split_and!; try done.
  - intros q Hq. cbn. by apply lookup_delete_ne.
  - intros x. unfold append_sample, store. unfold window in Hw.
    by rewrite Hw.
  - intros conv offset len Hlen.
    pose proof (get_data_out_of_range conv s' offset len Hlen) as H.
    by rewrite Hw in H.
Qed.

Lemma stop_releases_buffer_witness :
  record_status (from_result session3 (microphone_inference_end session3))
    = false ∧
  inference (from_result session3 (microphone_inference_end session3))
    = inference session3 ∧
  buffer (inference (from_result session3 (microphone_inference_end session3)))
    = buffer (inference session3) ∧
  is_Some (heap session3 !! buffer (inference session3)) ∧
  heap (from_result session3 (microphone_inference_end session3))
    = delete (buffer (inference session3)) (heap session3) ∧
  heap (from_result session3 (microphone_inference_end session3))
    !! buffer (inference session3) = None ∧
  (∀ q, q ≠ buffer (inference session3) →
     heap (from_result session3 (microphone_inference_end session3)) !! q
     = heap session3 !! q) ∧
  window (from_result session3 (microphone_inference_end session3)) = None ∧
  (∀ x, append_sample x
          (from_result session3 (microphone_inference_end session3))
        = Fault InvalidPointer) ∧
  (∀ conv offset len, (0 < len)%nat →
     microphone_audio_signal_get_data conv
       (from_result session3 (microphone_inference_end session3)) offset len
       = Fault InvalidPointer) ∧
  (∀ fuel arg,
     capture_samples (S fuel) arg
       (from_result session3 (microphone_inference_end session3))
     = Ok (Some (from_result session3 (microphone_inference_end session3)))).
Proof.
  apply (stop_releases_buffer session3).
  - vm_compute. discriminate.
  - reflexivity.
Defined.

(** X8. Starting again without stopping leaks: when two calls of
    [microphone_inference_start] in a row succeed, the block of the first
    is still allocated but [inference.buffer] no longer points to it, and
    two sampling tasks have been created. *)
Theorem start_twice_leaks malloc n m st0 st1 st2 :
  malloc_sound malloc → malloc_fresh malloc →
  microphone_inference_start malloc n st0 = (true, st1) →
  microphone_inference_start malloc m st1 = (true, st2) →
  buffer (inference st2) ≠ buffer (inference st1) ∧
  is_Some (heap st2 !! buffer (inference st1)) ∧
  heap st2 !! buffer (inference st1) = heap st1 !! buffer (inference st1) ∧
  tasks st2 = tasks st0 ++ [sample_buffer_size; sample_buffer_size].
Proof.
  intros Hs Hf H1 H2. unfold microphone_inference_start in H1, H2.
  destruct (malloc _ (heap st0)) as [p1 h1] eqn:Hm1.
  destruct (Z.eqb_spec p1 0) as [|Hp1]; [done|].
  injection H1 as <-. cbn in H2.
  destruct (malloc _ h1) as [p2 h2] eqn:Hm2.
  destruct (Z.eqb_spec p2 0) as [|Hp2]; [done|].
  injection H2 as <-. cbn.
  destruct (Hs _ _ _ _ Hm1 Hp1) as (cells & Hc1 & _).
  destruct (Hf _ _ _ _ Hm2 Hp2) as (Hfresh & Hkeep).
  assert (p2 ≠ p1) as Hne by (intros ->; congruence).
  split_and!; try done.
  - rewrite Hkeep by done. by rewrite Hc1.
  - by apply Hkeep.
  - by rewrite <- app_assoc.
Qed.

Lemma malloc_at_fresh addr limit : malloc_fresh (malloc_at addr limit).
Proof.
  intros size h p h' Hm Hp. unfold malloc_at in Hm.
  destruct (_ && _) eqn:Hok; [|by inversion Hm; subst].
  apply andb_true_iff in Hok as [_ Hfree%bool_decide_eq_true].
  inversion Hm; subst. split; [done|].
  intros q Hq. by apply lookup_insert_ne.
Qed.

Lemma malloc_bump_sound limit : malloc_sound (malloc_bump limit).
Proof. intros size h. apply malloc_at_sound. Qed.

Lemma malloc_bump_fresh limit : malloc_fresh (malloc_bump limit).
Proof. intros size h. apply malloc_at_fresh. Qed.

Lemma start_twice_leaks_witness :
  buffer (inference second_session) ≠ buffer (inference first_session) ∧
  is_Some (heap second_session !! buffer (inference first_session)) ∧
  heap second_session !! buffer (inference first_session)
    = heap first_session !! buffer (inference first_session) ∧
  tasks second_session
    = tasks (boot []) ++ [sample_buffer_size; sample_buffer_size].
Proof.
  apply (start_twice_leaks (malloc_bump 65536) 3 3 (boot [])
           first_session second_session).
  - apply malloc_bump_sound.
  - apply malloc_bump_fresh.
  - reflexivity.
  - reflexivity.
Defined.

(** X9. A stop followed by a successful start does not stop the task of
    the old session unless it tested the flag in between:
    [record_status] is true again, the counters are reset over a new live
    block, one more task has been created, and every task started with
    [sample_buffer_size], the old one included, runs on. *)
Theorem stop_then_start_keeps_old_task malloc n st s1 s2 fuel :
  malloc_sound malloc → 0 < n < 2 ^ 31 →
  length (sampleBuffer st) = Z.to_nat sample_buffer_size →
  microphone_inference_end st = Ok s1 →
  microphone_inference_start malloc n s1 = (true, s2) →
  record_status s1 = false ∧ record_status s2 = true ∧
  buf_count (inference s2) = 0 ∧ buf_ready (inference s2) = 0 ∧
  n_samples (inference s2) = n ∧
  tasks s2 = tasks st ++ [sample_buffer_size] ∧
  capture_step sample_buffer_size LoopHead s2 = Ok (Reading 0, s2) ∧
  capture_samples fuel sample_buffer_size s2 = Ok None.
Proof.
  intros Hs Hn Hlen Hend Hstart.
  destruct (start_success malloc n s1 s2 Hs Hn Hstart)
    as (Hwf & Hns & Hc & Hr & Hrs & Ht & Hsb & _).
  assert (record_status s1 = false ∧ tasks s1 = tasks st ∧
          sampleBuffer s1 = sampleBuffer st) as (Hrs1 & Ht1 & Hsb1).
  { unfold microphone_inference_end, ei_free in Hend. cbn in Hend.
    destruct (_ =? _); [by injection Hend as <-|].
    destruct (heap st !! _); [by injection Hend as <-|done]. }
  split_and!; try done; try congruence.
  - unfold capture_step. by rewrite Hrs.
  - apply capture_samples_running; try done. congruence.
Qed.

Lemma stop_then_start_keeps_old_task_witness :
  record_status
    (from_result first_session (microphone_inference_end first_session))
    = false ∧
  record_status restarted_session = true ∧
  buf_count (inference restarted_session) = 0 ∧
  buf_ready (inference restarted_session) = 0 ∧
  n_samples (inference restarted_session) = 3 ∧
  tasks restarted_session = tasks first_session ++ [sample_buffer_size] ∧
  capture_step sample_buffer_size LoopHead restarted_session
    = Ok (Reading 0, restarted_session) ∧
  capture_samples 4 sample_buffer_size restarted_session = Ok None.
Proof.
  apply (stop_then_start_keeps_old_task (malloc_bump 65536) 3 first_session
           (from_result first_session (microphone_inference_end first_session))
           restarted_session 4).
  - apply malloc_bump_sound.
  - lia.
  - reflexivity.
  - reflexivity.
  - reflexivity.
Defined.

(** ** The control loop without a window *)

Lemma sampler_yield_stopped st :
  record_status st = false → sampler_yield st = Ok st.
Proof. intros H. unfold sampler_yield, capture_cycle. by rewrite H. Qed.

Section Waiting.

Variable EI_CLASSIFIER_RAW_SAMPLE_COUNT : Z.
Variable EI_CLASSIFIER_HAS_ANOMALY : Z.
Variable int16_to_float : Z → float.
Variable run_classifier : signal_t → bool → result (Z * ei_impulse_result_t).

Lemma record_waits yield fuel :
  ∀ st, yield st = Ok st → buf_ready (inference st) = 0 →
    microphone_inference_record yield fuel st = Ok None.
Proof.
  induction fuel as [|fuel IH]; intros st Hy Hr; [done|].
  rewrite record_unfold, Hr, Hy. cbn [Z.eqb mbind result_bind].
  by apply IH.
Qed.

Variable yield : state → result state.

(** X10. With the flag clear and the other tasks leaving the state as it
    is (no sampling task was started, or the task has seen recording
    stopped), the wait of [microphone_inference_record] never ends:
    however long it polls it has not returned, and [loop] with it; no
    failure is reported. *)
Theorem wait_never_ends_without_producer fuel st :
  yield st = Ok st →
  buf_ready (inference st) = 0 →
  microphone_inference_record yield fuel st = Ok None ∧
  loop EI_CLASSIFIER_RAW_SAMPLE_COUNT EI_CLASSIFIER_HAS_ANOMALY
       int16_to_float run_classifier yield fuel st = Ok None.
Proof.
  intros Hy Hr.
  assert (microphone_inference_record yield fuel st = Ok None) as H
    by by apply record_waits.
  split; [done|]. unfold loop. by rewrite H.
Qed.

(** The wait returns with the flag cleared. *)
Lemma record_clears_flag fuel :
  ∀ st r s1,
    microphone_inference_record yield fuel st = Ok (Some (r, s1)) →
    buf_ready (inference s1) = 0.
Proof.
  induction fuel as [|f IH]; intros st r s1; [done|].
  rewrite record_unfold. destruct (_ =? _).
  - destruct (yield st) as [s|]; [|done]. cbn [mbind result_bind].
    apply IH.
  - by intros [= _ <-].
Qed.

(** X11. When the wait has returned and [run_classifier], called on the
    signal over the claimed window, returns a status other than
    [EI_IMPULSE_OK], the pass of [loop] ends at line 119 with that status:
    pin 33 is not written and the one line added to the console is the
    error.  The window is gone all the same: the wait had cleared the
    flag before the classifier was called. *)
Theorem classifier_failure_skips_actuator fuel st s1 r res :
  (∀ s s', yield s = Ok s' → gpio s' = gpio s) →
  microphone_inference_record yield fuel st = Ok (Some (true, s1)) →
  run_classifier
    (mk_signal EI_CLASSIFIER_RAW_SAMPLE_COUNT
               (microphone_audio_signal_get_data int16_to_float s1))
    debug_nn = Ok (r, res) →
  r ≠ EI_IMPULSE_OK →
  buf_ready (inference s1) = 0 ∧
  ∃ st',
    loop EI_CLASSIFIER_RAW_SAMPLE_COUNT EI_CLASSIFIER_HAS_ANOMALY
         int16_to_float run_classifier yield fuel st
      = Ok (Some (ClassifierFailed r, st')) ∧
    gpio st' = gpio st ∧
    console st' = console s1 ++ [ClassifierError r].
Proof.
  intros Hy Hrec Hcl Hr.
  split; [by apply (record_clears_flag fuel st true)|].
  pose proof (record_gpio _ _ Hy _ _ _ Hrec) as Hg1.
  unfold loop. rewrite Hrec. cbn [mbind result_bind negb].
  rewrite Hcl. cbn [mbind result_bind].
  destruct (Z.eqb_spec r EI_IMPULSE_OK) as [|_]; [done|]. cbn [negb].
  eexists. split; [done|]. by split.
Qed.

End Waiting.

Lemma wait_never_ends_without_producer_witness :
  microphone_inference_record sampler_yield 7
    (from_result session3 (microphone_inference_end session3)) = Ok None ∧
  loop 3 0 int16_to_float_scaled (classifier_of 0.5%float) sampler_yield 7
    (from_result session3 (microphone_inference_end session3)) = Ok None.
Proof.
  apply (wait_never_ends_without_producer
           3 0 int16_to_float_scaled (classifier_of 0.5%float) sampler_yield
           7 (from_result session3 (microphone_inference_end session3))).
  - reflexivity.
  - reflexivity.
Defined.

Lemma classifier_failure_skips_actuator_witness :
  buf_ready (inference (consumer_claim session3_ready)) = 0 ∧
  ∃ st',
    loop 3 0 int16_to_float_scaled (classifier_failing (-3)) sampler_yield
         1 session3_ready
      = Ok (Some (ClassifierFailed (-3), st')) ∧
    gpio st' = gpio session3_ready ∧
    console st' = console (consumer_claim session3_ready)
                    ++ [ClassifierError (-3)].
Proof.
  apply (classifier_failure_skips_actuator
           3 0 int16_to_float_scaled (classifier_failing (-3)) sampler_yield
           1 session3_ready (consumer_claim session3_ready) (-3)
           (mk_result [] 0%float (mk_timing 0 0 0))).
  - exact sampler_yield_gpio.
  - reflexivity.
  - reflexivity.
  - discriminate.
Defined.

(** ** Readings *)

Lemma to_int16_range z : -32768 ≤ to_int16 z ≤ 32767.
Proof.
  unfold to_int16.
  pose proof (Z.mod_pos_bound (z + 32768) 65536 ltac:(lia)). lia.
Qed.

Lemma to_int16_small z : -32768 ≤ z ≤ 32767 → to_int16 z = z.
Proof. intros H. unfold to_int16. rewrite Z.mod_small by lia. lia. Qed.

(** X12. A batch of readings is stored as 16-bit values: whatever the
    converter delivers, every cell of [sampleBuffer] is within the range
    of [signed short] after the read loop; and a reading within that
    range (the 12-bit values 0..4095 of the converter, and its error
    value -1) is stored unchanged, at the position of its delivery. *)
Theorem readings_stored_as_int16 st :
  length (sampleBuffer st) = Z.to_nat sample_buffer_size →
  ∃ s1, read_loop (Z.to_nat sample_buffer_size) 0 st = Ok s1 ∧
    adc s1 = drop (Z.to_nat sample_buffer_size) (adc st) ∧
    Forall (λ x, -32768 ≤ x ≤ 32767) (sampleBuffer s1) ∧
    ∀ (i : nat) r,
      (i < Z.to_nat sample_buffer_size)%nat → adc st !! i = Some r →
      -32768 ≤ r ≤ 32767 → sampleBuffer s1 !! i = Some r.
Proof.
  intros Hlen.
  remember (Z.to_nat sample_buffer_size) as B eqn:HB.
  destruct (read_loop_spec B 0 st) as (s1 & Hread & Hadc & Hsb & _); [lia|].
  rewrite take_0, drop_ge in Hsb by (cbn; lia).
  cbn [app] in Hsb. rewrite app_nil_r in Hsb.
  exists s1. split_and!; try done.
  - rewrite Hsb. apply Forall_forall. intros x Hx.
    apply list_elem_of_In, in_map_iff in Hx as (z & <- & _).
    apply to_int16_range.
  - intros i r Hi Hr Hrange. rewrite Hsb.
    change (map to_int16 ?l) with (to_int16 <$> l).
    rewrite list_lookup_fmap, lookup_take_lt by done.
    rewrite lookup_app_l by (by apply lookup_lt_Some in Hr).
    rewrite Hr. cbn. by rewrite to_int16_small.
Qed.

Lemma readings_stored_as_int16_witness :
  ∃ s1, read_loop (Z.to_nat sample_buffer_size) 0
          (set_adc [0; 4095; -1; 2048] session3) = Ok s1 ∧
    adc s1 = drop (Z.to_nat sample_buffer_size)
                  (adc (set_adc [0; 4095; -1; 2048] session3)) ∧
    Forall (λ x, -32768 ≤ x ≤ 32767) (sampleBuffer s1) ∧
    ∀ (i : nat) r,
      (i < Z.to_nat sample_buffer_size)%nat →
      adc (set_adc [0; 4095; -1; 2048] session3) !! i = Some r →
      -32768 ≤ r ≤ 32767 → sampleBuffer s1 !! i = Some r.
Proof.
  apply (readings_stored_as_int16 (set_adc [0; 4095; -1; 2048] session3)).
  reflexivity.
Defined.
